(** * The offline generation driver of aphrodite/endpoints/llm.py

    A shallow embedding of [LLM.generate], [LLM._add_request] and
    [LLM._run_engine], together with the properties the specification
    states about them.

    The driver talks to three collaborators: the request counter, the
    engine and the progress bar.  Their calls are effects; the embedding
    threads the [LLM] object through every call, records each call to a
    collaborator in a trace, and stops at the first exception, exactly as
    the Python control flow does. *)

From stdpp Require Import base option list numbers strings pretty gmap.

Open Scope Z_scope.

(** ** Values exchanged with the collaborators *)

(** Modelled from the spec: the [RequestOutput] class of
    aphrodite.common.outputs, which is not part of the source slice.  The
    driver reads [finished] only; [request_id] is the back-reference to
    the request, and the generated content is a payload the driver passes
    through untouched. *)
Record RequestOutput := {
  request_id : string;
  text : string;
  finished : bool;
}.

(** Python's [str] on an integer: the decimal numeral, with a leading
    minus sign for a negative one. *)
Definition str (i : Z) : string := pretty i.

(** Modelled from the spec: the [Counter] class of aphrodite.common.utils,
    which is not part of the source slice.  The specification describes a
    single monotonically increasing counter that is never reused and never
    decremented; [next] hands out the current value and moves on by one. *)
Definition Counter := Z.

Definition Counter_next (c : Counter) : Z * Counter := (c, c + 1).

(** [k] consecutive calls of [next], oldest value first. *)
Fixpoint Counter_take (k : nat) (c : Counter) : list Z * Counter :=
  match k with
  | O => ([], c)
  | S k' =>
      let '(v, c1) := Counter_next c in
      let '(vs, c2) := Counter_take k' c1 in
      (v :: vs, c2)
  end.

(** ** The engine interface

    Modelled from the spec: the [AphroditeEngine] class of
    aphrodite.engine.aphrodite, which is not part of the source slice.
    The driver consumes it through the four methods the specification
    lists for the engine.  [add_request] and [step] change the engine and
    may raise; [has_unfinished_requests] and
    [get_num_unfinished_requests] read it.  A raising call still returns
    the engine it leaves behind. *)
Class Engine (SamplingParams : Type) := {
  engine : Type;
  engine_error : Type;
  add_request :
    string → option string → SamplingParams → option (list Z) →
    engine → engine * option engine_error;
  step : engine → engine * (engine_error + list RequestOutput);
  has_unfinished_requests : engine → bool;
  get_num_unfinished_requests : engine → Z;
}.

Section Driver.

Context {SamplingParams : Type}.
(** The value of [SamplingParams()], the default sampling parameters. *)
Context (SamplingParams_default : SamplingParams).
Context `{Eng : Engine SamplingParams}.

(** The attributes [__init__] sets on the object. *)
Record LLM := {
  aphrodite : engine;
  request_counter : Counter;
}.

(** Exceptions that can leave [generate]. *)
Inductive exn :=
  | ValueError (msg : string)
  | IndexError
  | EngineError (e : engine_error).

(** One call to a collaborator, with what it answered. *)
Inductive call :=
  | AddRequest (request_id : string) (prompt : option string)
      (sampling_params : SamplingParams) (prompt_token_ids : option (list Z))
      (raised : option engine_error)
  | Step (answer : engine_error + list RequestOutput)
  | HasUnfinished (answer : bool)
  | GetNumUnfinished (answer : Z)
  | TqdmNew (total : Z)
  | TqdmUpdate (n : Z)
  | TqdmClose.

(** How a piece of driver code ends.  [Diverged] stands for a poll loop
    that is still running when its iteration budget is spent. *)
Inductive outcome (A : Type) :=
  | Returned (a : A)
  | Raised (e : exn)
  | Diverged.
Global Arguments Returned {A} a.
Global Arguments Raised {A} e.
Global Arguments Diverged {A}.

Record Run (A : Type) := {
  trace : list call;
  final : LLM;
  result : outcome A;
}.
Global Arguments trace {A} r.
Global Arguments final {A} r.
Global Arguments result {A} r.

(** Driver code: a function of the object it runs on. *)
Definition M (A : Type) : Type := LLM → Run A.

Definition ret {A} (a : A) : M A :=
  λ self, {| trace := []; final := self; result := Returned a |}.

Definition raise {A} (e : exn) : M A :=
  λ self, {| trace := []; final := self; result := Raised e |}.

Definition diverge {A} : M A :=
  λ self, {| trace := []; final := self; result := Diverged |}.

Definition bind {A B} (m : M A) (f : A → M B) : M B :=
  λ self,
    let r := m self in
    match result r with
    | Returned a =>
        let r' := f a (final r) in
        {| trace := trace r ++ trace r'; final := final r'; result := result r' |}
    | Raised e => {| trace := trace r; final := final r; result := Raised e |}
    | Diverged => {| trace := trace r; final := final r; result := Diverged |}
    end.

Notation "x <- m ; k" := (bind m (λ x, k))
  (at level 100, m at next level, right associativity).
Notation "m ;; k" := (bind m (λ _, k))
  (at level 100, right associativity).

(** *** Primitive calls *)

(** [next(self.request_counter)] *)
Definition next_request_counter : M Z :=
  λ self,
    let '(v, c) := Counter_next (request_counter self) in
    {| trace := [];
       final := {| aphrodite := aphrodite self; request_counter := c |};
       result := Returned v |}.

(** [self.aphrodite.add_request(request_id, prompt, sampling_params, prompt_token_ids)] *)
Definition aphrodite_add_request (request_id : string) (prompt : option string)
    (sampling_params : SamplingParams) (prompt_token_ids : option (list Z)) : M unit :=
  λ self,
    let '(e, raised) :=
      add_request request_id prompt sampling_params prompt_token_ids (aphrodite self) in
    {| trace := [AddRequest request_id prompt sampling_params prompt_token_ids raised];
       final := {| aphrodite := e; request_counter := request_counter self |};
       result := match raised with
                 | None => Returned ()
                 | Some err => Raised (EngineError err)
                 end |}.

(** [self.aphrodite.step()] *)
Definition aphrodite_step : M (list RequestOutput) :=
  λ self,
    let '(e, answer) := step (aphrodite self) in
    {| trace := [Step answer];
       final := {| aphrodite := e; request_counter := request_counter self |};
       result := match answer with
                 | inr outs => Returned outs
                 | inl err => Raised (EngineError err)
                 end |}.

(** [self.aphrodite.has_unfinished_requests()] *)
Definition aphrodite_has_unfinished_requests : M bool :=
  λ self,
    let b := has_unfinished_requests (aphrodite self) in
    {| trace := [HasUnfinished b]; final := self; result := Returned b |}.

(** [self.aphrodite.get_num_unfinished_requests()] *)
Definition aphrodite_get_num_unfinished_requests : M Z :=
  λ self,
    let n := get_num_unfinished_requests (aphrodite self) in
    {| trace := [GetNumUnfinished n]; final := self; result := Returned n |}.

(** The progress bar: [tqdm(total=...)], [pbar.update(n)], [pbar.close()]. *)
Definition tell (c : call) : M unit :=
  λ self, {| trace := [c]; final := self; result := Returned () |}.

(** [when b m]: [if b: m] *)
Definition when (b : bool) (m : M unit) : M unit :=
  if b then m else ret ().

(** ** The driver *)

(** [LLM._add_request] *)
Definition _add_request (prompt : option string) (sampling_params : SamplingParams)
    (prompt_token_ids : option (list Z)) : M unit :=
  v <- next_request_counter;
  let request_id := str v in
  aphrodite_add_request request_id prompt sampling_params prompt_token_ids.

(** The body of [for output in step_outputs] in [_run_engine]; [outputs]
    is the list the loop appends to. *)
Fixpoint collect (use_tqdm : bool) (step_outputs : list RequestOutput)
    (outputs : list RequestOutput) : M (list RequestOutput) :=
  match step_outputs with
  | [] => ret outputs
  | output :: rest =>
      if finished output then
        when use_tqdm (tell (TqdmUpdate 1));;
        collect use_tqdm rest (outputs ++ [output])
      else collect use_tqdm rest outputs
  end.

(** The [while self.aphrodite.has_unfinished_requests()] loop of
    [_run_engine]; [fuel] bounds the number of iterations. *)
Fixpoint poll (fuel : nat) (use_tqdm : bool) (outputs : list RequestOutput)
    : M (list RequestOutput) :=
  unfinished <- aphrodite_has_unfinished_requests;
  if unfinished : bool then
    match fuel with
    | O => diverge
    | S fuel' =>
        step_outputs <- aphrodite_step;
        outputs' <- collect use_tqdm step_outputs outputs;
        poll fuel' use_tqdm outputs'
    end
  else ret outputs.

(** [LLM._run_engine] *)
Definition _run_engine (fuel : nat) (use_tqdm : bool) : M (list RequestOutput) :=
  when use_tqdm (
    num_requests <- aphrodite_get_num_unfinished_requests;
    tell (TqdmNew num_requests));;
  outputs <- poll fuel use_tqdm [];
  when use_tqdm (tell TqdmClose);;
  ret outputs.

(** [for i in ...: body i] *)
Fixpoint for_each (range : list nat) (body : nat → M unit) : M unit :=
  match range with
  | [] => ret ()
  | i :: rest => body i;; for_each rest body
  end.

(** [xs[i]] on a list *)
Definition getitem {A} (xs : list A) (i : nat) : M A :=
  match xs !! i with
  | Some x => ret x
  | None => raise IndexError
  end.

(** The [prompts] argument: a bare string or a list of strings. *)
Inductive prompts_arg :=
  | PromptStr (s : string)
  | PromptList (l : list string).

(** [if isinstance(prompts, str): prompts = [prompts]] *)
Definition listify (prompts : option prompts_arg) : option (list string) :=
  match prompts with
  | Some (PromptStr s) => Some [s]
  | Some (PromptList l) => Some l
  | None => None
  end.

(** One round of the loop of lines 107-113. *)
Definition submit_one (prompts : option (list string))
    (sampling_params : SamplingParams) (prompt_token_ids : option (list (list Z)))
    (i : nat) : M unit :=
  prompt <- match prompts with
            | Some l => p <- getitem l i; ret (Some p)
            | None => ret None
            end;
  token_ids <- match prompt_token_ids with
               | None => ret None
               | Some t => x <- getitem t i; ret (Some x)
               end;
  _add_request prompt sampling_params token_ids.

(** [for i in range(num_requests): ...] *)
Definition submit_all (num_requests : nat) (prompts : option (list string))
    (sampling_params : SamplingParams) (prompt_token_ids : option (list (list Z)))
    : M unit :=
  for_each (seq 0 num_requests) (submit_one prompts sampling_params prompt_token_ids).

(** [LLM.generate] *)
Definition generate (fuel : nat) (prompts : option prompts_arg)
    (sampling_params : option SamplingParams)
    (prompt_token_ids : option (list (list Z))) (use_tqdm : bool)
    : M (list RequestOutput) :=
  match prompts, prompt_token_ids with
  | None, None => raise (ValueError "Either prompts or prompt_token_ids must be provided.")
  | _, _ =>
      let prompts := listify prompts in
      let mismatch :=
        match prompts, prompt_token_ids with
        | Some l, Some t => bool_decide (length l ≠ length t)
        | _, _ => false
        end in
      if mismatch then
        raise (ValueError "The lenghts of prompts and prompt_token_ids must be the same.")
      else
        let sampling_params := default SamplingParams_default sampling_params in
        (* [prompt_token_ids] is given whenever [prompts] is not: the
           first check has passed. *)
        let num_requests :=
          match prompts with
          | Some l => length l
          | None => length (default [] prompt_token_ids)
          end in
        submit_all num_requests prompts sampling_params prompt_token_ids;;
        _run_engine fuel use_tqdm
  end.

End Driver.

(** ** What a run shows

    Readings of a trace and of the arguments, used to state what
    [generate] does. *)
Section Observations.

Context {SamplingParams : Type}.
Context `{Eng : Engine SamplingParams}.

(** The object after an engine call that left the engine as [e]. *)
Definition with_engine (self : LLM) (e : engine) : LLM :=
  {| aphrodite := e; request_counter := request_counter self |}.

(** The progress-bar calls the loop over one step's outputs makes. *)
Definition updates (use_tqdm : bool) (step_outputs : list RequestOutput) : list call :=
  if use_tqdm then (λ _, TqdmUpdate 1) <$> filter (λ o, finished o = true) step_outputs
  else [].

(** The calls [_run_engine] makes before and after its loop. *)
Definition opening (use_tqdm : bool) (self : LLM) : list call :=
  if use_tqdm
  then [GetNumUnfinished (get_num_unfinished_requests (aphrodite self));
        TqdmNew (get_num_unfinished_requests (aphrodite self))]
  else [].

Definition closing {A} (use_tqdm : bool) (res : outcome A) : list call :=
  match res with
  | Returned _ => if use_tqdm then [TqdmClose] else []
  | _ => []
  end.

(** The [i]-th request of the batch: [prompts[i]] and
    [prompt_token_ids[i]], each absent when its list is. *)
Definition nth_prompt (prompts : option (list string)) (i : nat) : option string :=
  l ← prompts; l !! i.

Definition nth_token_ids (prompt_token_ids : option (list (list Z))) (i : nat)
    : option (list Z) :=
  t ← prompt_token_ids; t !! i.

(** Both lists, when given, have at least [n] elements. *)
Definition in_range (prompts : option (list string))
    (prompt_token_ids : option (list (list Z))) (n : nat) : Prop :=
  (∀ l, prompts = Some l → (n ≤ length l)%nat) ∧
  (∀ t, prompt_token_ids = Some t → (n ≤ length t)%nat).

(** The rounds [i], [i+1], ..., [i+k-1] of the submission loop. *)
Definition submit_from (prompts : option (list string))
    (sampling_params : SamplingParams) (prompt_token_ids : option (list (list Z)))
    (i k : nat) : M unit :=
  for_each (seq i k) (submit_one prompts sampling_params prompt_token_ids).

(** The arguments [generate] rejects: neither input is given, or both
    are and their lengths differ. *)
Definition invalid_args (prompts : option prompts_arg)
    (prompt_token_ids : option (list (list Z))) : Prop :=
  (prompts = None ∧ prompt_token_ids = None) ∨
  (∃ l t, listify prompts = Some l ∧ prompt_token_ids = Some t ∧ length l ≠ length t).

Global Instance invalid_args_dec prompts prompt_token_ids :
  Decision (invalid_args prompts prompt_token_ids).
Proof.
  unfold invalid_args.
  destruct (listify prompts) as [l|] eqn:Hl, prompt_token_ids as [t|].
  - destruct (decide (length l = length t)) as [Heq|Hne].
    + right. intros [[_ ?]|(l' & t' & ? & ? & ?)]; [done|]. by simplify_eq.
    + left. right. by exists l, t.
  - right. intros [[? _]|(l' & t' & ? & ? & ?)]; [|done].
    by subst prompts.
  - right. intros [[_ ?]|(l' & t' & ? & ? & ?)]; done.
  - left. left. split; [|done]. by destruct prompts as [[]|].
Defined.

(** [num_requests] of [generate]. *)
Definition batch_size (prompts : option prompts_arg)
    (prompt_token_ids : option (list (list Z))) : nat :=
  match listify prompts with
  | Some l => length l
  | None => length (default [] prompt_token_ids)
  end.

(** The requests handed to [add_request], in call order. *)
Definition submission (c : call)
    : option (string * option string * SamplingParams * option (list Z)) :=
  match c with
  | AddRequest request_id prompt sampling_params token_ids _ =>
      Some (request_id, prompt, sampling_params, token_ids)
  | _ => None
  end.

Definition submissions (tr : list call) := omap submission tr.

Definition issued_id (c : call) : option string :=
  match c with
  | AddRequest request_id _ _ _ _ => Some request_id
  | _ => None
  end.

Definition issued_ids (tr : list call) : list string := omap issued_id tr.

(** The outputs a call of [step] reports with [finished] set. *)
Definition reported (c : call) : list RequestOutput :=
  match c with
  | Step (inr outs) => filter (λ o, finished o = true) outs
  | _ => []
  end.

(** All of them, in the order [step] reported them. *)
Definition completions (tr : list call) : list RequestOutput := tr ≫= reported.

(** The error an engine call raised, if it did. *)
Definition failure (c : call) : option engine_error :=
  match c with
  | AddRequest _ _ _ _ (Some err) => Some err
  | Step (inl err) => Some err
  | _ => None
  end.

(** The calls made for the progress bar alone, and the others. *)
Definition for_progress (c : call) : bool :=
  match c with
  | GetNumUnfinished _ | TqdmNew _ | TqdmUpdate _ | TqdmClose => true
  | _ => false
  end.

Definition is_tqdm (c : call) : bool :=
  match c with
  | TqdmNew _ | TqdmUpdate _ | TqdmClose => true
  | _ => false
  end.

Definition progress (tr : list call) : list call :=
  filter (λ c, is_tqdm c = true) tr.

Definition driving (tr : list call) : list call :=
  filter (λ c, for_progress c = false) tr.

(** *** Several calls of [generate] on one object *)

Record invocation := {
  inv_fuel : nat;
  inv_prompts : option prompts_arg;
  inv_sampling_params : option SamplingParams;
  inv_prompt_token_ids : option (list (list Z));
  inv_use_tqdm : bool;
}.

Definition invoke (SamplingParams_default : SamplingParams) (c : invocation)
    : M (list RequestOutput) :=
  generate SamplingParams_default (inv_fuel c) (inv_prompts c)
    (inv_sampling_params c) (inv_prompt_token_ids c) (inv_use_tqdm c).

(** The runs of consecutive calls.  A caller may catch an exception and
    call again; nothing follows a call that does not come back. *)
Fixpoint session (SamplingParams_default : SamplingParams)
    (calls : list invocation) (self : LLM) : list (Run (list RequestOutput)) :=
  match calls with
  | [] => []
  | c :: rest =>
      let r := invoke SamplingParams_default c self in
      r :: match result r with
           | Diverged => []
           | _ => session SamplingParams_default rest (final r)
           end
  end.

Definition session_ids (runs : list (Run (list RequestOutput))) : list string :=
  runs ≫= (λ r, issued_ids (trace r)).

Definition returned {A} (r : Run A) : Prop := ∃ a, result r = Returned a.

(** *** The engine's side of the bargain

    What the driver relies on for its count of results: the engine keeps
    the requests it was handed and has not yet reported finished
    ([unfinished]); a request enters that collection when it is added and
    leaves it in the step that reports it finished; and a step on a
    non-empty collection uses up some of a finite [budget], so every
    request is reported in the end.  A [Ledger] names the three; the
    engine [honours] it when all of this holds in the states [sound]
    singles out. *)
Record Ledger := {
  sound : engine → Prop;
  unfinished : engine → list string;
  budget : engine → nat;
}.

Definition honours (L : Ledger) : Prop :=
  (∀ e, sound L e →
        has_unfinished_requests e = bool_decide (unfinished L e ≠ [])) ∧
  (∀ request_id prompt sampling_params token_ids e,
     sound L e →
     ∃ e', add_request request_id prompt sampling_params token_ids e = (e', None) ∧
           sound L e' ∧ unfinished L e' ≡ₚ request_id :: unfinished L e) ∧
  (∀ e, sound L e → unfinished L e ≠ [] →
        ∃ e' outs, step e = (e', inr outs) ∧ sound L e' ∧
                   unfinished L e ≡ₚ
                     (request_id <$> filter (λ o, finished o = true) outs) ++
                     unfinished L e' ∧
                   (budget L e' < budget L e)%nat).

End Observations.

(** ** A scripted engine

    A small engine for concrete runs.  It keeps the submitted requests in
    submission order and follows a plan: each [step] consumes one item of
    the plan, which either names the prompts whose requests reach their
    end in that step or makes the step raise.  Every step reports all
    requests it holds, the ones that go on marked unfinished.  With the
    plan used up, a step ends every request.  [add_request] raises when
    the engine is full. *)
Module Fake.

Record SamplingParams := { max_tokens : Z }.

Definition SamplingParams_default : SamplingParams := {| max_tokens := 16 |}.

Inductive plan_item :=
  | Finish (prompts : list string)
  | Crash (msg : string).

Record request := {
  rid : string;
  rprompt : option string;
}.

Record state := {
  pending : list request;
  plan : list plan_item;
  capacity : option nat;
}.

Definition full (e : state) : bool :=
  match capacity e with
  | Some n => bool_decide (n ≤ length (pending e))%nat
  | None => false
  end.

Definition add_request (request_id : string) (prompt : option string)
    (sampling_params : SamplingParams) (prompt_token_ids : option (list Z))
    (e : state) : state * option string :=
  if full e then (e, Some "engine is full")
  else
    ({| pending := pending e ++ [{| rid := request_id; rprompt := prompt |}];
        plan := plan e; capacity := capacity e |}, None).

Definition ends (prompts : list string) (r : request) : bool :=
  bool_decide (rprompt r ∈ Some <$> prompts).

Definition report (done : request → bool) (r : request) : RequestOutput :=
  {| request_id := rid r; text := default "" (rprompt r); finished := done r |}.

Definition step (e : state) : state * (string + list RequestOutput) :=
  match plan e with
  | [] =>
      ({| pending := []; plan := []; capacity := capacity e |},
       inr (report (λ _, true) <$> pending e))
  | Finish prompts :: rest =>
      ({| pending := filter (λ r, ends prompts r = false) (pending e);
          plan := rest; capacity := capacity e |},
       inr (report (ends prompts) <$> pending e))
  | Crash msg :: rest =>
      ({| pending := pending e; plan := rest; capacity := capacity e |}, inl msg)
  end.

Definition has_unfinished_requests (e : state) : bool :=
  bool_decide (pending e ≠ []).

Definition get_num_unfinished_requests (e : state) : Z :=
  Z.of_nat (length (pending e)).

Global Instance fake_engine : Engine SamplingParams :=
  Build_Engine SamplingParams state string
    add_request step has_unfinished_requests get_num_unfinished_requests.

(** The ledger of the scripted engine.  It keeps its contract as long as
    it has room for every request and no step of its plan fails. *)
Definition sound (e : state) : Prop :=
  capacity e = None ∧ Forall (λ item, ∃ prompts, item = Finish prompts) (plan e).

Definition unfinished (e : state) : list string := rid <$> pending e.

Definition budget (e : state) : nat := (length (plan e) + length (pending e))%nat.

Definition ledger : Ledger :=
  @Build_Ledger SamplingParams fake_engine sound unfinished budget.

(** A driver over the engine [e], with its counter at [c]. *)
Definition driver (e : state) (c : Counter) : LLM :=
  @Build_LLM SamplingParams fake_engine e c.

(** A freshly built driver over an idle engine that follows [p]. *)
Definition fresh (p : list plan_item) (cap : option nat) : LLM :=
  driver {| pending := []; plan := p; capacity := cap |} 0.

Definition run := generate SamplingParams_default.

End Fake.


(** ** Building the driver

    [LLM.__init__].  The keyword arguments are a dictionary from names to
    values; the values are whatever the caller passes, of which the
    constructor itself only makes booleans, integers and strings. *)
Section Construction.

Context {SamplingParams : Type}.
Context `{Eng : Engine SamplingParams}.
Context {value : Type}.
Context (of_bool : bool → value) (of_int : Z → value) (of_str : string → value).

(** What building the engine from its arguments can raise. *)
Context {build_error : Type}.

(** [AphroditeEngine.from_engine_args(EngineArgs(...))], as a function of
    the keywords of the [EngineArgs(...)] call; neither class is part of
    the source slice. *)
Context (from_engine_args : gmap string value → build_error + engine).

(** The value of [Counter()]. *)
Context (Counter_new : Counter).

Inductive init_exn :=
  | TypeError (keyword : string)
  | BuildError (e : build_error).

(** [if "disable_log_stats" not in kwargs: kwargs["disable_log_stats"] = True] *)
Definition with_log_stats_default (kwargs : gmap string value) : gmap string value :=
  match kwargs !! "disable_log_stats" with
  | None => <["disable_log_stats" := of_bool true]> kwargs
  | Some _ => kwargs
  end.

(** The keywords of a call [f(k1=v1, ..., kn=vn, **kwargs)]: the named
    ones and those of the dictionary.  A name given both ways is a
    [TypeError]. *)
Definition call_keywords (named : list (string * value)) (kwargs : gmap string value)
    : init_exn + gmap string value :=
  match list_find (λ kv, is_Some (kwargs !! kv.1)) named with
  | Some (_, (k, _)) => inl (TypeError k)
  | None => inr (list_to_map named ∪ kwargs)
  end.

(** The keywords [__init__] hands to [EngineArgs]. *)
Definition engine_args_keywords (model : string) (tensor_parallel_size : Z)
    (dtype : string) (seed : Z) (kwargs : gmap string value)
    : init_exn + gmap string value :=
  call_keywords
    [("model", of_str model);
     ("tensor_parallel_size", of_int tensor_parallel_size);
     ("dtype", of_str dtype);
     ("seed", of_int seed)]
    (with_log_stats_default kwargs).

(** [LLM.__init__]; an omitted [tensor_parallel_size], [dtype] or [seed]
    takes its default. *)
Definition __init__ (model : string) (tensor_parallel_size : option Z)
    (dtype : option string) (seed : option Z) (kwargs : gmap string value)
    : init_exn + LLM :=
  let tensor_parallel_size := default 1 tensor_parallel_size in
  let dtype := default "auto" dtype in
  let seed := default 0 seed in
  match engine_args_keywords model tensor_parallel_size dtype seed kwargs with
  | inl e => inl e
  | inr engine_args =>
      match from_engine_args engine_args with
      | inl e => inl (BuildError e)
      | inr e => inr {| aphrodite := e; request_counter := Counter_new |}
      end
  end.

(** The names [__init__] binds itself, which therefore never reach
    [kwargs]. *)
Definition init_parameters : list string :=
  ["model"; "tensor_parallel_size"; "dtype"; "seed"].

End Construction.

(** Values and an engine builder for concrete constructions: the
    scripted engine starts idle, with no plan, and with room for
    ["max_num_seqs"] requests when that keyword is an integer. *)
Module FakeInit.

Inductive value :=
  | PyBool (b : bool)
  | PyInt (i : Z)
  | PyStr (s : string).

Definition from_engine_args (engine_args : gmap string value) : string + Fake.state :=
  match engine_args !! "model" with
  | Some (PyStr _) =>
      inr {| Fake.pending := []; Fake.plan := [];
             Fake.capacity := match engine_args !! "max_num_seqs" with
                              | Some (PyInt n) => Some (Z.to_nat n)
                              | _ => None
                              end |}
  | _ => inl "model must be a string"
  end.

Definition init := __init__ (Eng := Fake.fake_engine) PyBool PyInt PyStr from_engine_args 0.

End FakeInit.

(** ** The shape of a trace *)
Section Protocol.

Context {SamplingParams : Type}.
Context `{Eng : Engine SamplingParams}.

(** Every call of [step] comes right after a call of
    [has_unfinished_requests] that answered true. *)
Definition steps_guarded (tr : list call) : Prop :=
  ∀ i answer, tr !! i = Some (Step answer) →
    ∃ j, i = S j ∧ tr !! j = Some (HasUnfinished true).

End Protocol.

(** ** How the two loops run

    One equation per loop: what a round of the submission loop and a
    round of the poll loop do to the object, the trace and the result.
    Every later proof goes by induction along these equations. *)
Section LoopEquations.

Context {SamplingParams : Type}.
Context (SamplingParams_default : SamplingParams).
Context `{Eng : Engine SamplingParams}.


Implicit Types (self : LLM) (tr : list call) (outputs : list RequestOutput).

Lemma collect_eq use_tqdm step_outputs outputs self :
  collect use_tqdm step_outputs outputs self =
    {| trace := updates use_tqdm step_outputs;
       final := self;
       result := Returned (outputs ++ filter (λ o, finished o = true) step_outputs) |}.
Proof.
  revert outputs. induction step_outputs as [|o rest IH]; intros outputs.
  - cbn. unfold ret, updates. rewrite app_nil_r. by destruct use_tqdm.
  - cbn [collect]. unfold updates in *. rewrite !filter_cons.
    destruct (finished o) eqn:Ho.
    + rewrite decide_True by done.
      unfold bind. destruct use_tqdm; cbn; rewrite IH; cbn;
        by rewrite <- app_assoc.
    + rewrite decide_False by done. by rewrite IH.
Qed.

Lemma poll_eq fuel use_tqdm outputs self :
  poll fuel use_tqdm outputs self =
    if has_unfinished_requests (aphrodite self) then
      match fuel with
      | O => {| trace := [HasUnfinished true]; final := self; result := Diverged |}
      | S fuel' =>
          match step (aphrodite self) with
          | (e, inl err) =>
              {| trace := [HasUnfinished true; Step (inl err)];
                 final := with_engine self e;
                 result := Raised (EngineError err) |}
          | (e, inr outs) =>
              let r := poll fuel' use_tqdm
                         (outputs ++ filter (λ o, finished o = true) outs)
                         (with_engine self e) in
              {| trace := HasUnfinished true :: Step (inr outs)
                            :: updates use_tqdm outs ++ trace r;
                 final := final r;
                 result := result r |}
          end
      end
    else {| trace := [HasUnfinished false]; final := self; result := Returned outputs |}.
Proof.
  destruct fuel as [|fuel']; cbn [poll];
    unfold bind, aphrodite_has_unfinished_requests, aphrodite_step; cbn;
    destruct (has_unfinished_requests (aphrodite self)); try done.
  destruct (step (aphrodite self)) as [e [err|outs]]; cbn; [done|].
  rewrite collect_eq. cbn. by destruct (poll _ _ _ _).
Qed.

Lemma _add_request_eq prompt sampling_params token_ids self :
  _add_request prompt sampling_params token_ids self =
    let request_id := str (request_counter self) in
    let '(e, raised) :=
      add_request request_id prompt sampling_params token_ids (aphrodite self) in
    {| trace := [AddRequest request_id prompt sampling_params token_ids raised];
       final := {| aphrodite := e; request_counter := request_counter self + 1 |};
       result := match raised with
                 | None => Returned ()
                 | Some err => Raised (EngineError err)
                 end |}.
Proof.
  unfold _add_request, bind, next_request_counter, aphrodite_add_request.
  cbn. by destruct (add_request _ _ _ _ _) as [e [err|]].
Qed.

Lemma submit_one_eq prompts sampling_params prompt_token_ids i self :
  in_range prompts prompt_token_ids (S i) →
  submit_one prompts sampling_params prompt_token_ids i self =
    _add_request (nth_prompt prompts i) sampling_params
      (nth_token_ids prompt_token_ids i) self.
Proof.
  intros [Hp Ht]. unfold submit_one, nth_prompt, nth_token_ids, bind, getitem, ret.
  destruct prompts as [l|]; destruct prompt_token_ids as [t|]; cbn.
  all: try (destruct (lookup_lt_is_Some_2 l i) as [p ->]; [by apply Hp|]).
  all: try (destruct (lookup_lt_is_Some_2 t i) as [x ->]; [by apply Ht|]).
  all: by cbn.
Qed.

Lemma submit_from_eq prompts sampling_params prompt_token_ids i k self :
  in_range prompts prompt_token_ids (i + k) →
  submit_from prompts sampling_params prompt_token_ids i k self =
    match k with
    | O => {| trace := []; final := self; result := Returned () |}
    | S k' =>
        let request_id := str (request_counter self) in
        let prompt := nth_prompt prompts i in
        let token_ids := nth_token_ids prompt_token_ids i in
        match add_request request_id prompt sampling_params token_ids (aphrodite self) with
        | (e, Some err) =>
            {| trace := [AddRequest request_id prompt sampling_params token_ids (Some err)];
               final := {| aphrodite := e; request_counter := request_counter self + 1 |};
               result := Raised (EngineError err) |}
        | (e, None) =>
            let r := submit_from prompts sampling_params prompt_token_ids (S i) k'
                       {| aphrodite := e; request_counter := request_counter self + 1 |} in
            {| trace := AddRequest request_id prompt sampling_params token_ids None :: trace r;
               final := final r;
               result := result r |}
        end
    end.
Proof.
  intros [Hp Ht]. destruct k as [|k']; [done|].
  unfold submit_from. cbn [seq for_each]. unfold bind at 1.
  rewrite submit_one_eq by (split; intros ? ->; [specialize (Hp _ eq_refl)|specialize (Ht _ eq_refl)]; lia).
  rewrite _add_request_eq. cbn.
  destruct (add_request _ _ _ _ _) as [e [err|]]; cbn; [done|].
  by destruct (for_each _ _ _).
Qed.

Lemma _run_engine_eq fuel use_tqdm self :
  _run_engine fuel use_tqdm self =
    let r := poll fuel use_tqdm [] self in
    {| trace := opening use_tqdm self ++ trace r ++ closing use_tqdm (result r);
       final := final r;
       result := result r |}.
Proof.
  unfold _run_engine, when, bind, aphrodite_get_num_unfinished_requests, tell, ret.
  unfold opening, closing.
  destruct use_tqdm; cbn; destruct (poll _ _ _ _) as [tr fin [outs|e|]]; cbn;
    by rewrite ?app_nil_r.
Qed.

Lemma generate_invalid prompts prompt_token_ids :
  invalid_args prompts prompt_token_ids →
  ∃ msg, ∀ fuel sampling_params use_tqdm self,
    generate SamplingParams_default fuel prompts sampling_params
      prompt_token_ids use_tqdm self =
      {| trace := []; final := self; result := Raised (ValueError msg) |}.
Proof.
  intros [[-> ->]|(l & t & Hl & -> & Hne)]; [by eexists|].
  unfold generate. destruct prompts as [arg|]; [|done].
  rewrite Hl. eexists. intros. by rewrite bool_decide_true by done.
Qed.

Lemma generate_valid fuel prompts sampling_params prompt_token_ids use_tqdm self :
  ¬ invalid_args prompts prompt_token_ids →
  in_range (listify prompts) prompt_token_ids (batch_size prompts prompt_token_ids) ∧
  generate SamplingParams_default fuel prompts sampling_params
    prompt_token_ids use_tqdm self =
    bind (submit_from (listify prompts)
            (default SamplingParams_default sampling_params)
            prompt_token_ids 0 (batch_size prompts prompt_token_ids))
         (λ _, _run_engine fuel use_tqdm) self.
Proof.
  intros Hv. unfold invalid_args in Hv. unfold generate, batch_size, in_range.
  destruct prompts as [[s|l]|], prompt_token_ids as [t|]; cbn in *.
  all: try (destruct Hv; by left).
  all: try (case_bool_decide as Hne; [destruct Hv; right; by eauto|]).
  all: split; [|done]; split; intros ? [=]; subst; try done.
  all: try apply dec_stable in Hne; cbn in *; lia.
Qed.

(** Induction along the rounds of the poll loop. *)
Lemma poll_ind use_tqdm
    (P : nat → list RequestOutput → LLM → Run (list RequestOutput) → Prop) :
  (∀ fuel outputs self,
     has_unfinished_requests (aphrodite self) = false →
     P fuel outputs self
       {| trace := [HasUnfinished false]; final := self; result := Returned outputs |}) →
  (∀ outputs self,
     has_unfinished_requests (aphrodite self) = true →
     P O outputs self
       {| trace := [HasUnfinished true]; final := self; result := Diverged |}) →
  (∀ fuel outputs self e err,
     has_unfinished_requests (aphrodite self) = true →
     step (aphrodite self) = (e, inl err) →
     P (S fuel) outputs self
       {| trace := [HasUnfinished true; Step (inl err)];
          final := with_engine self e;
          result := Raised (EngineError err) |}) →
  (∀ fuel outputs self e outs r,
     has_unfinished_requests (aphrodite self) = true →
     step (aphrodite self) = (e, inr outs) →
     r = poll fuel use_tqdm (outputs ++ filter (λ o, finished o = true) outs)
           (with_engine self e) →
     P fuel (outputs ++ filter (λ o, finished o = true) outs) (with_engine self e) r →
     P (S fuel) outputs self
       {| trace := HasUnfinished true :: Step (inr outs)
                     :: updates use_tqdm outs ++ trace r;
          final := final r;
          result := result r |}) →
  ∀ fuel outputs self, P fuel outputs self (poll fuel use_tqdm outputs self).
Proof.
  intros Hstop Hout Hraise Hround fuel.
  induction fuel as [|fuel IH]; intros outputs self; rewrite poll_eq;
    destruct (has_unfinished_requests (aphrodite self)) eqn:Hq; auto.
  destruct (step (aphrodite self)) as [e [err|outs]] eqn:Hs; auto.
  cbn zeta. by eapply Hround.
Qed.

(** Induction along the rounds of the submission loop. *)
Lemma submit_from_ind prompts sampling_params prompt_token_ids
    (P : nat → nat → LLM → Run () → Prop) :
  (∀ i self, P i O self {| trace := []; final := self; result := Returned () |}) →
  (∀ i k self e err,
     add_request (str (request_counter self)) (nth_prompt prompts i) sampling_params
       (nth_token_ids prompt_token_ids i) (aphrodite self) = (e, Some err) →
     P i (S k) self
       {| trace := [AddRequest (str (request_counter self)) (nth_prompt prompts i)
                      sampling_params (nth_token_ids prompt_token_ids i) (Some err)];
          final := {| aphrodite := e; request_counter := request_counter self + 1 |};
          result := Raised (EngineError err) |}) →
  (∀ i k self e r,
     add_request (str (request_counter self)) (nth_prompt prompts i) sampling_params
       (nth_token_ids prompt_token_ids i) (aphrodite self) = (e, None) →
     r = submit_from prompts sampling_params prompt_token_ids (S i) k
           {| aphrodite := e; request_counter := request_counter self + 1 |} →
     P (S i) k {| aphrodite := e; request_counter := request_counter self + 1 |} r →
     P i (S k) self
       {| trace := AddRequest (str (request_counter self)) (nth_prompt prompts i)
                     sampling_params (nth_token_ids prompt_token_ids i) None :: trace r;
          final := final r;
          result := result r |}) →
  ∀ i k self,
    in_range prompts prompt_token_ids (i + k) →
    P i k self (submit_from prompts sampling_params prompt_token_ids i k self).
Proof.
  intros Hdone Hraise Hround i k. revert i.
  induction k as [|k IH]; intros i self Hr; rewrite submit_from_eq by done; auto.
  cbn zeta.
  destruct (add_request _ _ _ _ _) as [e [err|]] eqn:Ha; auto.
  eapply Hround; [done..|]. apply IH.
  destruct Hr as [Hp Ht]. split; intros ? ->;
    [specialize (Hp _ eq_refl)|specialize (Ht _ eq_refl)]; lia.
Qed.

End LoopEquations.

(** ** Reading the trace of a run *)
Section TraceFacts.

Context {SamplingParams : Type}.
Context (SamplingParams_default : SamplingParams).
Context `{Eng : Engine SamplingParams}.

Implicit Types (self : LLM) (tr : list call) (outputs : list RequestOutput).

Lemma completions_app tr1 tr2 :
  completions (tr1 ++ tr2) = completions tr1 ++ completions tr2.
Proof. apply bind_app. Qed.

Lemma issued_ids_app tr1 tr2 : issued_ids (tr1 ++ tr2) = issued_ids tr1 ++ issued_ids tr2.
Proof. apply omap_app. Qed.

Lemma submissions_app tr1 tr2 :
  submissions (tr1 ++ tr2) = submissions tr1 ++ submissions tr2.
Proof. apply omap_app. Qed.

Lemma progress_app tr1 tr2 : progress (tr1 ++ tr2) = progress tr1 ++ progress tr2.
Proof. apply filter_app. Qed.

Lemma driving_app tr1 tr2 : driving (tr1 ++ tr2) = driving tr1 ++ driving tr2.
Proof. apply filter_app. Qed.

(** The calls of [updates] are calls of [pbar.update(1)] and nothing else. *)
Lemma updates_spec use_tqdm step_outputs :
  updates use_tqdm step_outputs =
    if use_tqdm
    then replicate (length (filter (λ o, finished o = true) step_outputs)) (TqdmUpdate 1)
    else [].
Proof.
  unfold updates. destruct use_tqdm; [|done].
  induction (filter _ step_outputs) as [|o l IH]; [done|]. cbn. by rewrite IH.
Qed.

Lemma updates_readings use_tqdm step_outputs :
  completions (updates use_tqdm step_outputs) = [] ∧
  issued_ids (updates use_tqdm step_outputs) = [] ∧
  submissions (updates use_tqdm step_outputs) = [] ∧
  driving (updates use_tqdm step_outputs) = [] ∧
  progress (updates use_tqdm step_outputs) = updates use_tqdm step_outputs ∧
  (∀ c, c ∈ updates use_tqdm step_outputs → failure c = None).
Proof.
  rewrite updates_spec. destruct use_tqdm.
  - induction (length _) as [|n (IH1 & IH2 & IH3 & IH4 & IH5 & IH6)]; cbn.
    + repeat split; try done. by intros c ?%elem_of_nil.
    + repeat split; try done.
      * rewrite decide_True by done. f_equal. apply IH5.
      * intros c [->|Hc]%elem_of_cons; [done|]. by apply IH6.
  - repeat split; try done. by intros c ?%elem_of_nil.
Qed.

(** The two engine calls that open a round of the poll loop. *)
Lemma round_readings b answer tr :
  completions (HasUnfinished b :: Step answer :: tr) =
    reported (Step answer) ++ completions tr ∧
  issued_ids (HasUnfinished b :: Step answer :: tr) = issued_ids tr ∧
  submissions (HasUnfinished b :: Step answer :: tr) = submissions tr ∧
  progress (HasUnfinished b :: Step answer :: tr) = progress tr ∧
  driving (HasUnfinished b :: Step answer :: tr) =
    HasUnfinished b :: Step answer :: driving tr.
Proof. done. Qed.

(** *** The poll loop *)

(** What the loop returns is what it started from followed by the
    finished outputs of the steps, in the order of the steps. *)
Lemma poll_completions fuel use_tqdm outputs self outs :
  result (poll fuel use_tqdm outputs self) = Returned outs →
  outs = outputs ++ completions (trace (poll fuel use_tqdm outputs self)).
Proof.
  revert outs. pattern fuel, outputs, self, (poll fuel use_tqdm outputs self).
  apply poll_ind; clear; cbn [trace result final].
  - intros _ outputs _ _ outs [= <-]. by rewrite app_nil_r.
  - done.
  - done.
  - intros _ outputs _ _ outs r _ _ _ IH res Hres.
    rewrite (proj1 (round_readings _ _ _)).
    rewrite completions_app, (proj1 (updates_readings _ _)). cbn.
    rewrite (IH _ Hres). by rewrite <- app_assoc.
Qed.

(** The progress bar moves once for every finished output. *)
Lemma poll_progress fuel use_tqdm outputs self :
  progress (trace (poll fuel use_tqdm outputs self)) =
    if use_tqdm
    then replicate (length (completions (trace (poll fuel use_tqdm outputs self))))
           (TqdmUpdate 1)
    else [].
Proof.
  pattern fuel, outputs, self, (poll fuel use_tqdm outputs self).
  apply poll_ind; clear; cbn [trace result final].
  - intros. by destruct use_tqdm.
  - intros. by destruct use_tqdm.
  - intros. by destruct use_tqdm.
  - intros _ outputs _ _ outs r _ _ _ IH.
    destruct (round_readings true (inr outs) (updates use_tqdm outs ++ trace r))
      as (Hrc & _ & _ & Hrp & _).
    destruct (updates_readings use_tqdm outs) as (Hc & _ & _ & _ & Hp & _).
    rewrite Hrc, Hrp, progress_app, completions_app, IH, Hp, Hc. cbn.
    rewrite updates_spec. destruct use_tqdm; [|done].
    by rewrite length_app, replicate_add.
Qed.

(** The loop submits nothing and leaves the counter alone. *)
Lemma poll_quiet fuel use_tqdm outputs self :
  submissions (trace (poll fuel use_tqdm outputs self)) = [] ∧
  issued_ids (trace (poll fuel use_tqdm outputs self)) = [] ∧
  request_counter (final (poll fuel use_tqdm outputs self)) = request_counter self.
Proof.
  pattern fuel, outputs, self, (poll fuel use_tqdm outputs self).
  apply poll_ind; clear; cbn [trace result final]; try done.
  intros k outputs self' e outs r _ _ _ (IH1 & IH2 & IH3).
  destruct (round_readings true (inr outs) (updates use_tqdm outs ++ trace r))
    as (_ & Hri & Hrs & _).
  destruct (updates_readings use_tqdm outs) as (_ & Hi & Hs & _).
  by rewrite Hri, Hrs, submissions_app, issued_ids_app, Hi, Hs, IH1, IH2.
Qed.

(** A loop that ended within its budget of rounds runs the same with
    a larger one. *)
Lemma poll_more_fuel fuel fuel' use_tqdm outputs self :
  (fuel ≤ fuel')%nat →
  result (poll fuel use_tqdm outputs self) ≠ Diverged →
  poll fuel' use_tqdm outputs self = poll fuel use_tqdm outputs self.
Proof.
  revert fuel' outputs self.
  induction fuel as [|fuel IH]; intros fuel' outputs self Hle;
    rewrite !(poll_eq _ _ outputs self);
    destruct (has_unfinished_requests (aphrodite self)); try done.
  destruct fuel' as [|fuel']; [lia|].
  destruct (step (aphrodite self)) as [e [err|outs]]; [done|].
  cbv zeta. cbn [result]. intros Hres. by rewrite IH by (done || lia).
Qed.

(** An engine call that raises is the last call of the loop, and its
    error is what the loop raises. *)
Lemma poll_failure fuel use_tqdm outputs self c err :
  c ∈ trace (poll fuel use_tqdm outputs self) →
  failure c = Some err →
  result (poll fuel use_tqdm outputs self) = Raised (EngineError err) ∧
  last (trace (poll fuel use_tqdm outputs self)) = Some c.
Proof.
  pattern fuel, outputs, self, (poll fuel use_tqdm outputs self).
  apply poll_ind; clear -c; cbn [trace result final].
  - by intros k outputs self' _ ->%list_elem_of_singleton.
  - by intros outputs self' _ ->%list_elem_of_singleton.
  - intros k outputs self' e err' _ _
      [->|Hc%list_elem_of_singleton]%elem_of_cons; [done|].
    subst c. by intros [= ->].
  - intros k outputs self' e outs r _ _ _ IH
      [->|[->|[Hc|Hc]%elem_of_app]%elem_of_cons]%elem_of_cons Hf; try done.
    + by rewrite (proj2 (proj2 (proj2 (proj2 (proj2 (updates_readings _ _))))) _ Hc) in Hf.
    + destruct (IH Hc Hf) as [Hres Hlast]. split; [done|].
      destruct (trace r) as [|c' tr'] eqn:Htr; [done|].
      by rewrite !last_cons, last_app, Hlast.
Qed.

(** Conversely, the loop raises only what a [step] raised. *)
Lemma poll_raised fuel use_tqdm outputs self x :
  result (poll fuel use_tqdm outputs self) = Raised x →
  ∃ err, x = EngineError err ∧
         last (trace (poll fuel use_tqdm outputs self)) = Some (Step (inl err)).
Proof.
  pattern fuel, outputs, self, (poll fuel use_tqdm outputs self).
  apply poll_ind; clear -x; cbn [trace result final]; try done.
  - intros k outputs self' e err _ _ [= <-]. by exists err.
  - intros k outputs self' e outs r _ _ _ IH Hres.
    destruct (IH Hres) as (err & -> & Hlast). exists err. split; [done|].
    by rewrite !last_cons, last_app, Hlast.
Qed.

(** *** The submission loop *)

Lemma issued_ids_submissions tr : issued_ids tr = (λ x, x.1.1.1) <$> submissions tr.
Proof.
  induction tr as [|c tr IH]; [done|].
  unfold issued_ids, submissions in *. by destruct c; cbn; rewrite IH.
Qed.

(** The requests go out in index order, carrying consecutive counter
    values; the counter ends as many steps further as requests went out;
    and all of them went out unless [add_request] raised. *)
Lemma submit_submissions prompts sampling_params prompt_token_ids i k self :
  in_range prompts prompt_token_ids (i + k) →
  let r := submit_from prompts sampling_params prompt_token_ids i k self in
  ∃ m : nat,
    (m ≤ k)%nat ∧
    request_counter (final r) = request_counter self + Z.of_nat m ∧
    submissions (trace r) =
      (λ j : nat, (str (request_counter self + Z.of_nat j), nth_prompt prompts (i + j),
                   sampling_params, nth_token_ids prompt_token_ids (i + j)))
        <$> seq 0 m ∧
    (result r = Returned () → m = k).
Proof.
  intros Hr. cbv zeta.
  pattern i, k, self, (submit_from prompts sampling_params prompt_token_ids i k self).
  apply submit_from_ind; [| | |done]; clear; cbn [trace result final].
  - intros i self. exists O. cbn. repeat split; [lia|lia].
  - intros i k self e err _. exists 1%nat. cbn.
    rewrite Z.add_0_r, Nat.add_0_r. repeat split; [lia|done].
  - intros i k self e r _ _ (m & Hm & Hc & Hs & Hk). cbn in Hc, Hs.
    exists (S m). repeat split.
    + lia.
    + lia.
    + cbn. rewrite Z.add_0_r, Nat.add_0_r. f_equal.
      unfold submissions in Hs. rewrite Hs, <- fmap_S_seq, <- list_fmap_compose.
      apply list_fmap_ext. intros _ j _. cbn.
      by rewrite Nat.add_succ_r, Nat2Z.inj_succ, <- Z.add_1_l, Z.add_assoc.
    + intros Hres. by rewrite Hk.
Qed.

(** The submission loop calls [add_request] and nothing else. *)
Lemma submit_silent prompts sampling_params prompt_token_ids i k self :
  in_range prompts prompt_token_ids (i + k) →
  let r := submit_from prompts sampling_params prompt_token_ids i k self in
  completions (trace r) = [] ∧ progress (trace r) = [] ∧ driving (trace r) = trace r.
Proof.
  intros Hr. cbv zeta.
  pattern i, k, self, (submit_from prompts sampling_params prompt_token_ids i k self).
  apply submit_from_ind; [| | |done]; clear; cbn [trace result final]; try done.
  intros i k self e r _ _ (Hc & Hp & Hd). repeat split; try done.
  unfold driving in *. rewrite filter_cons. cbn [for_progress].
  rewrite decide_True by done. by rewrite Hd.
Qed.

(** It ends by returning, or by raising what the last [add_request]
    raised; no earlier [add_request] raised. *)
Lemma submit_failure prompts sampling_params prompt_token_ids i k self :
  in_range prompts prompt_token_ids (i + k) →
  let r := submit_from prompts sampling_params prompt_token_ids i k self in
  (result r = Returned () ∨ ∃ err, result r = Raised (EngineError err)) ∧
  ∀ c err, c ∈ trace r → failure c = Some err →
           result r = Raised (EngineError err) ∧ last (trace r) = Some c.
Proof.
  intros Hr. cbv zeta.
  pattern i, k, self, (submit_from prompts sampling_params prompt_token_ids i k self).
  apply submit_from_ind; [| | |done]; clear; cbn [trace result final].
  - intros i self. split; [by left|]. by intros c err ?%elem_of_nil.
  - intros i k self e err _. split; [right; by exists err|].
    intros c err' ->%list_elem_of_singleton [= ->]. done.
  - intros i k self e r _ _ [Hres IH]. split; [done|].
    intros c err [->|Hc]%elem_of_cons Hf; [done|].
    destruct (IH _ _ Hc Hf) as [Hr Hl]. split; [done|].
    destruct (trace r) as [|c' tr'] eqn:Htr; [done|]. by rewrite last_cons, Hl.
Qed.

(** When the loop raises, its last call is the [add_request] that did. *)
Lemma submit_raised prompts sampling_params prompt_token_ids i k self x :
  in_range prompts prompt_token_ids (i + k) →
  let r := submit_from prompts sampling_params prompt_token_ids i k self in
  result r = Raised x →
  ∃ c err, x = EngineError err ∧ last (trace r) = Some c ∧
           is_Some (submission c) ∧ failure c = Some err.
Proof.
  intros Hr. cbv zeta.
  pattern i, k, self, (submit_from prompts sampling_params prompt_token_ids i k self).
  apply submit_from_ind; [| | |done]; clear -x; cbn [trace result final]; try done.
  - intros i k self e err _ [= <-]. eexists _, err. by repeat split.
  - intros i k self e r _ _ IH Hres.
    destruct (IH Hres) as (c & err & -> & Hl & Hs & Hf).
    exists c, err. repeat split; try done.
    destruct (trace r) as [|c' tr'] eqn:Htr; [done|]. by rewrite last_cons, Hl.
Qed.

(** The same for the whole loop, which starts at index 0. *)
Lemma submit_all_submissions prompts sampling_params prompt_token_ids n self :
  in_range prompts prompt_token_ids n →
  let r := submit_from prompts sampling_params prompt_token_ids 0 n self in
  ∃ m : nat,
    (m ≤ n)%nat ∧
    request_counter (final r) = request_counter self + Z.of_nat m ∧
    submissions (trace r) =
      (λ j : nat, (str (request_counter self + Z.of_nat j), nth_prompt prompts j,
                   sampling_params, nth_token_ids prompt_token_ids j))
        <$> seq 0 m ∧
    (result r = Returned () → m = n).
Proof. intros Hr. by apply (submit_submissions _ _ _ 0 n). Qed.

Lemma submit_all_silent prompts sampling_params prompt_token_ids n self :
  in_range prompts prompt_token_ids n →
  let r := submit_from prompts sampling_params prompt_token_ids 0 n self in
  completions (trace r) = [] ∧ progress (trace r) = [] ∧ driving (trace r) = trace r.
Proof. intros Hr. by apply (submit_silent _ _ _ 0 n). Qed.

Lemma submit_all_failure prompts sampling_params prompt_token_ids n self :
  in_range prompts prompt_token_ids n →
  let r := submit_from prompts sampling_params prompt_token_ids 0 n self in
  (result r = Returned () ∨ ∃ err, result r = Raised (EngineError err)) ∧
  ∀ c err, c ∈ trace r → failure c = Some err →
           result r = Raised (EngineError err) ∧ last (trace r) = Some c.
Proof. intros Hr. by apply (submit_failure _ _ _ 0 n). Qed.

Lemma submit_all_raised prompts sampling_params prompt_token_ids n self x :
  in_range prompts prompt_token_ids n →
  let r := submit_from prompts sampling_params prompt_token_ids 0 n self in
  result r = Raised x →
  ∃ c err, x = EngineError err ∧ last (trace r) = Some c ∧
           is_Some (submission c) ∧ failure c = Some err.
Proof. intros Hr. by apply (submit_raised _ _ _ 0 n). Qed.

(** The size of the batch is the length of each list that is given. *)
Lemma batch_size_spec prompts prompt_token_ids :
  ¬ invalid_args prompts prompt_token_ids →
  (∀ l, listify prompts = Some l → length l = batch_size prompts prompt_token_ids) ∧
  (∀ t, prompt_token_ids = Some t → length t = batch_size prompts prompt_token_ids).
Proof.
  intros Hok. unfold batch_size. split.
  - by intros l ->.
  - intros t ->. destruct (listify prompts) as [l|] eqn:Hl; [|done].
    destruct (decide (length l = length t)) as [|Hne]; [done|].
    destruct Hok. right. by exists l, t.
Qed.

(** The calls around the loop are for the progress bar alone. *)
Lemma opening_readings use_tqdm self :
  completions (opening use_tqdm self) = [] ∧
  issued_ids (opening use_tqdm self) = [] ∧
  submissions (opening use_tqdm self) = [] ∧
  driving (opening use_tqdm self) = [] ∧
  (∀ c, c ∈ opening use_tqdm self → failure c = None).
Proof.
  unfold opening. destruct use_tqdm; repeat split; try done.
  - intros c [->|[->|?%elem_of_nil]%elem_of_cons]%elem_of_cons; done.
  - by intros c ?%elem_of_nil.
Qed.

Lemma closing_readings {A} use_tqdm (res : outcome A) :
  completions (closing use_tqdm res) = [] ∧
  issued_ids (closing use_tqdm res) = [] ∧
  submissions (closing use_tqdm res) = [] ∧
  driving (closing use_tqdm res) = [] ∧
  (∀ c, c ∈ closing use_tqdm res → failure c = None).
Proof.
  unfold closing. destruct res, use_tqdm; repeat split; try done.
  all: try by intros c ?%elem_of_nil.
  by intros c ->%list_elem_of_singleton.
Qed.

Lemma completions_finished tr : Forall (λ o, finished o = true) (completions tr).
Proof.
  induction tr as [|c tr IH]; [constructor|].
  change (completions (c :: tr)) with (reported c ++ completions tr).
  apply Forall_app. split; [|done].
  destruct c as [| [err|outs] | | | | |]; try constructor.
  apply Forall_forall. by intros o [? _]%list_elem_of_filter.
Qed.

(** *** With and without the progress bar *)

Lemma poll_erasure fuel outputs self :
  let r1 := poll fuel true outputs self in
  let r0 := poll fuel false outputs self in
  result r1 = result r0 ∧ final r1 = final r0 ∧
  driving (trace r1) = trace r0 ∧ driving (trace r0) = trace r0.
Proof.
  cbv zeta. induction fuel as [|fuel IH] in outputs, self |- *;
    rewrite !(poll_eq _ _ outputs self);
    destruct (has_unfinished_requests (aphrodite self)); try done.
  destruct (step (aphrodite self)) as [e [err|outs]]; [done|].
  cbv zeta. cbn [trace result final].
  destruct (IH (outputs ++ filter (λ o, finished o = true) outs) (with_engine self e))
    as (Hres & Hfin & Hd1 & Hd0).
  repeat split; try done.
  - rewrite (proj2 (proj2 (proj2 (proj2 (round_readings _ _ _))))).
    rewrite driving_app, (proj1 (proj2 (proj2 (proj2 (updates_readings _ _))))).
    by rewrite Hd1.
  - rewrite (proj2 (proj2 (proj2 (proj2 (round_readings _ _ _))))).
    by rewrite driving_app, Hd0.
Qed.

(** *** A whole call *)

(** A call with acceptable arguments runs the submission loop and then,
    if that returned, [_run_engine]. *)
Lemma generate_run fuel prompts sampling_params prompt_token_ids use_tqdm self :
  ¬ invalid_args prompts prompt_token_ids →
  let s := submit_from (listify prompts)
             (default SamplingParams_default sampling_params)
             prompt_token_ids 0 (batch_size prompts prompt_token_ids) self in
  let g := generate SamplingParams_default fuel prompts sampling_params
             prompt_token_ids use_tqdm self in
  (∃ err, result s = Raised (EngineError err) ∧
          g = {| trace := trace s; final := final s;
                 result := Raised (EngineError err) |}) ∨
  (result s = Returned () ∧
   let p := poll fuel use_tqdm [] (final s) in
   g = {| trace := trace s ++ opening use_tqdm (final s) ++ trace p ++
                   closing use_tqdm (result p);
          final := final p;
          result := result p |}).
Proof.
  intros Hv. cbv zeta.
  destruct (generate_valid SamplingParams_default fuel prompts sampling_params
              prompt_token_ids use_tqdm self Hv) as [Hr ->].
  destruct (submit_failure (listify prompts)
              (default SamplingParams_default sampling_params) prompt_token_ids
              0 (batch_size prompts prompt_token_ids) self Hr) as [[Hs|[err Hs]] _].
  - right. split; [done|]. unfold bind. rewrite Hs. by rewrite _run_engine_eq.
  - left. exists err. split; [done|]. unfold bind. by rewrite Hs.
Qed.

(** *** The counter and the ids *)

Lemma Counter_take_spec k c :
  Counter_take k c = ((λ j : nat, c + Z.of_nat j) <$> seq 0 k, c + Z.of_nat k).
Proof.
  revert c. induction k as [|k IH]; intros c; cbn [Counter_take].
  - cbn. by rewrite Z.add_0_r.
  - unfold Counter_next. rewrite IH. cbn [seq fmap list_fmap].
    rewrite Z.add_0_r, <- fmap_S_seq, <- list_fmap_compose. f_equal; [|lia].
    f_equal. apply list_fmap_ext. intros _ j _. cbn. lia.
Qed.

Lemma str_inj i j : str i = str j → i = j.
Proof. unfold str. apply (inj pretty). Qed.

(** The ids a call issues are the renderings of the counter values from
    where the counter stood; the counter ends past the last of them. *)
Lemma generate_ids fuel prompts sampling_params prompt_token_ids use_tqdm self :
  let r := generate SamplingParams_default fuel prompts sampling_params
             prompt_token_ids use_tqdm self in
  ∃ m : nat,
    issued_ids (trace r) = str <$> (Counter_take m (request_counter self)).1 ∧
    request_counter (final r) = (Counter_take m (request_counter self)).2 ∧
    (¬ invalid_args prompts prompt_token_ids → returned r →
     m = batch_size prompts prompt_token_ids).
Proof.
  cbv zeta.
  destruct (decide (invalid_args prompts prompt_token_ids)) as [Hbad|Hok].
  { destruct (generate_invalid SamplingParams_default _ _ Hbad) as [msg Hg].
    exists O. rewrite Hg. cbn. split; [done|]. split; [lia|]. by intros []. }
  destruct (generate_valid SamplingParams_default fuel prompts sampling_params
              prompt_token_ids use_tqdm self Hok) as [Hr _].
  destruct (submit_all_submissions _ (default SamplingParams_default sampling_params)
              _ _ self Hr) as (m & Hm & Hc & Hsubs & Hall).
  exists m. rewrite Counter_take_spec. cbn [fst snd].
  destruct (generate_run fuel prompts sampling_params
              prompt_token_ids use_tqdm self Hok) as [(err & Hs & Hg)|[Hs Hg]];
    cbv zeta in Hg; rewrite Hg; cbn [trace result final].
  - rewrite issued_ids_submissions, Hsubs, <- !list_fmap_compose.
    split; [done|]. split; [done|]. by intros _ [outs ?].
  - rewrite !issued_ids_app.
    rewrite (proj1 (proj2 (opening_readings _ _))).
    rewrite (proj1 (proj2 (closing_readings _ _))).
    destruct (poll_quiet fuel use_tqdm []
                (final (submit_from (listify prompts)
                          (default SamplingParams_default sampling_params)
                          prompt_token_ids 0
                          (batch_size prompts prompt_token_ids) self)))
      as (_ & -> & ->).
    rewrite !app_nil_r, issued_ids_submissions, Hsubs, <- !list_fmap_compose.
    split; [done|]. split; [done|]. intros _ _. by apply Hall.
Qed.

Lemma session_ids_cons (r : Run (list RequestOutput)) runs :
  session_ids (r :: runs) = issued_ids (trace r) ++ session_ids runs.
Proof. done. Qed.

(** Over consecutive calls the ids issued are still the renderings of
    consecutive counter values. *)
Lemma session_ids_spec calls self :
  ∃ m : nat,
    session_ids (session SamplingParams_default calls self) =
      str <$> (Counter_take m (request_counter self)).1.
Proof.
  revert self. induction calls as [|c calls IH]; intros self; [by exists O|].
  cbn [session]. rewrite session_ids_cons.
  destruct (generate_ids (inv_fuel c) (inv_prompts c) (inv_sampling_params c)
              (inv_prompt_token_ids c) (inv_use_tqdm c) self) as (m1 & Hids & Hc & _).
  fold (invoke SamplingParams_default c self) in Hids, Hc.
  assert (∃ m2 : nat,
            session_ids match result (invoke SamplingParams_default c self) with
                        | Diverged => []
                        | _ => session SamplingParams_default calls
                                 (final (invoke SamplingParams_default c self))
                        end =
            str <$> (Counter_take m2
                       (request_counter (final (invoke SamplingParams_default c self)))).1)
    as (m2 & Hrest).
  { destruct (result (invoke SamplingParams_default c self)); [apply IH|apply IH|].
    by exists O. }
  exists (m1 + m2)%nat. rewrite Hids, Hrest, Hc, !Counter_take_spec. cbn [fst snd].
  rewrite <- fmap_app. f_equal. rewrite seq_app, fmap_app. f_equal.
  replace (seq (0 + m1) m2) with (Nat.add m1 <$> seq 0 m2)
    by (rewrite fmap_add_seq; f_equal; lia).
  rewrite <- list_fmap_compose.
  apply list_fmap_ext. intros _ j _. cbn. lia.
Qed.

Lemma Counter_ids_NoDup m c : NoDup (str <$> (Counter_take m c).1).
Proof.
  rewrite Counter_take_spec. cbn [fst]. rewrite <- list_fmap_compose.
  apply NoDup_fmap_2_strong; [|apply NoDup_seq].
  intros i j _ _ Heq. cbn in Heq. apply str_inj in Heq. lia.
Qed.

Lemma session_ids_NoDup calls self :
  NoDup (session_ids (session SamplingParams_default calls self)).
Proof.
  destruct (session_ids_spec calls self) as [m ->]. apply Counter_ids_NoDup.
Qed.

(** Calls that all come back, each for a batch of [M], issue [M] ids each. *)
Lemma session_count calls self (M : nat) :
  Forall (λ c, ¬ invalid_args (inv_prompts c) (inv_prompt_token_ids c) ∧
               batch_size (inv_prompts c) (inv_prompt_token_ids c) = M) calls →
  Forall returned (session SamplingParams_default calls self) →
  length (session_ids (session SamplingParams_default calls self)) =
    (length calls * M)%nat.
Proof.
  intros Hcalls. revert self. induction Hcalls as [|c calls [Hok HM] _ IH]; [done|].
  intros self. cbn [session]. intros [Hret Hrest]%Forall_cons.
  rewrite session_ids_cons, length_app. cbn [length].
  destruct (generate_ids (inv_fuel c) (inv_prompts c) (inv_sampling_params c)
              (inv_prompt_token_ids c) (inv_use_tqdm c) self) as (m & Hids & _ & Hm).
  fold (invoke SamplingParams_default c self) in Hids, Hm.
  rewrite Hids, length_fmap, Counter_take_spec. cbn [fst].
  rewrite length_fmap, length_seq, (Hm Hok Hret), HM.
  destruct Hret as [outs Hres]. rewrite Hres in Hrest |- *.
  by rewrite (IH _ Hrest).
Qed.

End TraceFacts.

(** ** An engine that keeps its side *)
Section UnderContract.

Context {SamplingParams : Type}.
Context (SamplingParams_default : SamplingParams).
Context `{Eng : Engine SamplingParams}.
Context (L : Ledger) (HL : honours L).

Lemma contract_query e :
  sound L e → has_unfinished_requests e = bool_decide (unfinished L e ≠ []).
Proof. apply HL. Qed.

Lemma contract_add request_id prompt sampling_params token_ids e :
  sound L e →
  ∃ e', add_request request_id prompt sampling_params token_ids e = (e', None) ∧
        sound L e' ∧ unfinished L e' ≡ₚ request_id :: unfinished L e.
Proof. apply HL. Qed.

Lemma contract_step e :
  sound L e → unfinished L e ≠ [] →
  ∃ e' outs, step e = (e', inr outs) ∧ sound L e' ∧
             unfinished L e ≡ₚ
               (request_id <$> filter (λ o, finished o = true) outs) ++
               unfinished L e' ∧
             (budget L e' < budget L e)%nat.
Proof. apply HL. Qed.

(** Every request of the batch is accepted and joins the unfinished ones. *)
Lemma contract_submit prompts sampling_params prompt_token_ids i k (self : LLM) :
  in_range prompts prompt_token_ids (i + k) →
  sound L (aphrodite self) →
  let r := submit_from prompts sampling_params prompt_token_ids i k self in
  result r = Returned () ∧
  sound L (aphrodite (final r)) ∧
  unfinished L (aphrodite (final r)) ≡ₚ
    issued_ids (trace r) ++ unfinished L (aphrodite self).
Proof.
  intros Hr. cbv zeta.
  pattern i, k, self, (submit_from prompts sampling_params prompt_token_ids i k self).
  apply submit_from_ind; [| | |done]; clear -L HL; cbn [trace result final aphrodite].
  - done.
  - intros i k self e err Ha Hsound.
    destruct (contract_add (str (request_counter self)) (nth_prompt prompts i)
                sampling_params (nth_token_ids prompt_token_ids i)
                (aphrodite self) Hsound) as (e' & Ha' & _).
    rewrite Ha in Ha'. done.
  - intros i k self e r Ha _ IH Hsound.
    destruct (contract_add (str (request_counter self)) (nth_prompt prompts i)
                sampling_params (nth_token_ids prompt_token_ids i)
                (aphrodite self) Hsound) as (e' & Ha' & Hsound' & Hun).
    rewrite Ha in Ha'. injection Ha' as <-.
    destruct (IH Hsound') as (Hres & Hfin & Hperm).
    split; [done|]. split; [done|].
    rewrite Hperm, Hun. cbn. by rewrite Permutation_middle.
Qed.

(** Given enough rounds, the poll loop returns, and what it adds to its
    list accounts for each unfinished request once. *)
Lemma contract_poll fuel use_tqdm outputs (self : LLM) :
  sound L (aphrodite self) →
  (budget L (aphrodite self) ≤ fuel)%nat →
  ∃ outs,
    result (poll fuel use_tqdm outputs self) = Returned (outputs ++ outs) ∧
    request_id <$> outs ≡ₚ unfinished L (aphrodite self).
Proof.
  revert outputs self. induction fuel as [|fuel IH]; intros outputs self Hsound Hfuel;
    rewrite poll_eq, (contract_query _ Hsound);
    destruct (decide (unfinished L (aphrodite self) = [])) as [Hnil|Hsome].
  - rewrite bool_decide_false by (by intros []). exists []. by rewrite app_nil_r, Hnil.
  - destruct (contract_step _ Hsound Hsome) as (? & ? & _ & _ & _ & ?). lia.
  - rewrite bool_decide_false by (by intros []). exists []. by rewrite app_nil_r, Hnil.
  - rewrite bool_decide_true by done.
    destruct (contract_step _ Hsound Hsome) as (e' & outs & -> & Hsound' & Hperm & Hb).
    cbv zeta. cbn [result].
    destruct (IH (outputs ++ filter (λ o, finished o = true) outs)
                (with_engine self e') Hsound' ltac:(cbn; lia)) as (rest & Hres & Hrest).
    exists (filter (λ o, finished o = true) outs ++ rest).
    rewrite Hres, app_assoc. split; [done|].
    by rewrite fmap_app, Hrest, Hperm.
Qed.

(** A call for a list of prompts on an idle engine: given enough rounds
    it returns, with one output for each id it issued. *)
Lemma contract_generate (l : list string) sampling_params use_tqdm (self : LLM) :
  sound L (aphrodite self) →
  unfinished L (aphrodite self) = [] →
  ∃ fuel0, ∀ fuel, (fuel0 ≤ fuel)%nat →
    ∃ outs,
      result (generate SamplingParams_default fuel (Some (PromptList l))
                sampling_params None use_tqdm self) = Returned outs ∧
      request_id <$> outs ≡ₚ
        str <$> (Counter_take (length l) (request_counter self)).1.
Proof.
  intros Hsound Hidle.
  assert (¬ invalid_args (Some (PromptList l)) None) as Hok.
  { by intros [[? _]|(? & ? & _ & ? & _)]. }
  set (s := submit_from (listify (Some (PromptList l)))
              (default SamplingParams_default sampling_params) None 0
              (batch_size (Some (PromptList l)) None) self).
  exists (budget L (aphrodite (final s))). intros fuel Hfuel.
  destruct (generate_valid SamplingParams_default fuel _ sampling_params _
              use_tqdm self Hok) as [Hr _].
  destruct (contract_submit _ (default SamplingParams_default sampling_params)
              _ 0 _ self Hr Hsound) as (Hs & Hsound' & Hperm).
  fold s in Hs, Hsound', Hperm.
  destruct (submit_all_submissions _ (default SamplingParams_default sampling_params)
              _ _ self Hr) as (m & _ & _ & Hsubs & Hall).
  fold s in Hsubs, Hall. specialize (Hall Hs). subst m.
  destruct (contract_poll fuel use_tqdm [] (final s) Hsound' Hfuel)
    as (outs & Hres & Hids).
  exists outs.
  destruct (generate_run SamplingParams_default fuel _ sampling_params _
              use_tqdm self Hok) as [(err & Hs' & _)|[_ Hg]].
  { fold s in Hs'. by rewrite Hs in Hs'. }
  cbv zeta in Hg. fold s in Hg. rewrite Hg. cbn [result].
  split; [done|].
  rewrite Hids, Hperm, Hidle, app_nil_r, issued_ids_submissions, Hsubs.
  rewrite Counter_take_spec. cbn [fst]. by rewrite <- !list_fmap_compose.
Qed.

End UnderContract.

(** The scripted engine honours its ledger. *)
Module FakeContract.

Lemma fake_query e :
  Fake.sound e → Fake.has_unfinished_requests e = bool_decide (Fake.unfinished e ≠ []).
Proof.
  intros _. unfold Fake.has_unfinished_requests, Fake.unfinished.
  apply bool_decide_ext. by destruct (Fake.pending e).
Qed.

Lemma fake_add request_id prompt sampling_params token_ids e :
  Fake.sound e →
  ∃ e', Fake.add_request request_id prompt sampling_params token_ids e = (e', None) ∧
        Fake.sound e' ∧ Fake.unfinished e' ≡ₚ request_id :: Fake.unfinished e.
Proof.
  intros [Hcap Hplan]. unfold Fake.add_request, Fake.full. rewrite Hcap.
  eexists. split; [done|]. split; [done|].
  unfold Fake.unfinished. cbn. rewrite fmap_app. cbn.
  by rewrite <- Permutation_cons_append.
Qed.

Lemma fake_reports_all (pending : list Fake.request) :
  request_id <$> filter (λ o, finished o = true)
                   (Fake.report (λ _, true) <$> pending) = Fake.rid <$> pending.
Proof.
  induction pending as [|r pending IH]; [done|].
  cbn [fmap list_fmap]. rewrite filter_cons_True by done.
  cbn [fmap list_fmap]. by rewrite IH.
Qed.

Lemma fake_reports_split prompts (pending : list Fake.request) :
  Fake.rid <$> pending ≡ₚ
    (request_id <$> filter (λ o, finished o = true)
                      (Fake.report (Fake.ends prompts) <$> pending)) ++
    (Fake.rid <$> filter (λ r, Fake.ends prompts r = false) pending).
Proof.
  induction pending as [|r pending IH]; [done|].
  cbn [fmap list_fmap]. rewrite !filter_cons. cbn [finished Fake.report].
  destruct (Fake.ends prompts r) eqn:Hr.
  - rewrite decide_True, decide_False by done. cbn. by rewrite <- IH.
  - rewrite decide_False, decide_True by done. cbn.
    by rewrite <- Permutation_middle, <- IH.
Qed.

Lemma fake_step e :
  Fake.sound e → Fake.unfinished e ≠ [] →
  ∃ e' outs, Fake.step e = (e', inr outs) ∧ Fake.sound e' ∧
             Fake.unfinished e ≡ₚ
               (request_id <$> filter (λ o, finished o = true) outs) ++
               Fake.unfinished e' ∧
             (Fake.budget e' < Fake.budget e)%nat.
Proof.
  intros [Hcap Hplan] Hsome. unfold Fake.step, Fake.unfinished, Fake.budget in *.
  destruct (Fake.plan e) as [|item rest] eqn:Hp.
  - eexists _, _. split; [done|]. cbn. split; [by split|]. split.
    + by rewrite fake_reports_all, app_nil_r.
    + destruct (Fake.pending e); [done|]. cbn. lia.
  - apply Forall_cons in Hplan as [[prompts ->] Hrest].
    eexists _, _. split; [done|]. cbn. split; [by split|]. split.
    + apply fake_reports_split.
    + pose proof (length_filter (λ r, Fake.ends prompts r = false) (Fake.pending e)).
      lia.
Qed.

Lemma fake_honours : honours Fake.ledger.
Proof. split; [exact fake_query|]. split; [exact fake_add|exact fake_step]. Qed.

End FakeContract.

(** ** The claims of the specification *)

(** C1: whenever [generate] returns, the list it returns is the list of
    outputs that the engine's [step] calls reported with [finished] set,
    in the order of those reports (completion order, whatever the
    submission order was), and every output in it is marked finished. *)
Theorem generate_returns_in_completion_order
    {SamplingParams : Type} (SamplingParams_default : SamplingParams)
    `{Eng : Engine SamplingParams}
    fuel prompts sampling_params prompt_token_ids use_tqdm (self : LLM) outs :
  result (generate SamplingParams_default fuel prompts sampling_params
            prompt_token_ids use_tqdm self) = Returned outs →
  outs = completions (trace (generate SamplingParams_default fuel prompts
                               sampling_params prompt_token_ids use_tqdm self)) ∧
  Forall (λ o, finished o = true) outs.
Proof.
  intros Hres.
  assert (outs = completions (trace (generate SamplingParams_default fuel prompts
                 sampling_params prompt_token_ids use_tqdm self))) as Hout.
  { destruct (decide (invalid_args prompts prompt_token_ids)) as [Hbad|Hok].
    - destruct (generate_invalid SamplingParams_default _ _ Hbad) as [msg Hg].
      by rewrite Hg in Hres.
    - destruct (generate_run SamplingParams_default fuel prompts sampling_params
                  prompt_token_ids use_tqdm self Hok) as [(err & _ & Hg)|[Hs Hg]];
        cbv zeta in Hg; rewrite Hg in Hres |- *; [done|].
      cbn [result trace] in *.
      destruct (generate_valid SamplingParams_default fuel prompts sampling_params
                  prompt_token_ids use_tqdm self Hok) as [Hr _].
      rewrite !completions_app.
      rewrite (proj1 (submit_all_silent _ _ _ _ _ Hr)).
      rewrite (proj1 (opening_readings _ _)), (proj1 (closing_readings _ _)).
      rewrite app_nil_r. cbn. by apply poll_completions in Hres. }
  split; [done|]. rewrite Hout. apply completions_finished.
Qed.

(** The scenario of the specification: three prompts, the engine ends
    "b" in its first step and "a" and "c" in its second. *)
Lemma generate_returns_in_completion_order_witness :
  let r := Fake.run 2 (Some (PromptList ["a"; "b"; "c"])) None None true
             (Fake.fresh [Fake.Finish ["b"]; Fake.Finish ["a"; "c"]] None) in
  let outs := [ {| request_id := "1"; text := "b"; finished := true |};
                {| request_id := "0"; text := "a"; finished := true |};
                {| request_id := "2"; text := "c"; finished := true |} ] in
  result r = Returned outs ∧
  outs = completions (trace r) ∧ Forall (λ o, finished o = true) outs.
Proof.
  cbv zeta. split; [vm_compute; reflexivity|].
  apply (generate_returns_in_completion_order Fake.SamplingParams_default).
  vm_compute; reflexivity.
Defined.

(** In that scenario the requests went out as "0", "1", "2" and came
    back as "1", "0", "2". *)
Example completion_order_is_not_submission_order :
  let r := Fake.run 2 (Some (PromptList ["a"; "b"; "c"])) None None true
             (Fake.fresh [Fake.Finish ["b"]; Fake.Finish ["a"; "c"]] None) in
  issued_ids (trace r) = ["0"; "1"; "2"] ∧
  request_id <$> completions (trace r) = ["1"; "0"; "2"] ∧
  (∃ outs, result r = Returned outs ∧ request_id <$> outs = ["1"; "0"; "2"]).
Proof. cbv zeta. repeat split. eexists. split; vm_compute; reflexivity. Qed.

(** C2: [generate] raises [ValueError] exactly when neither [prompts] nor
    [prompt_token_ids] is given, or both are given and (a bare string
    counting as a list of one) their lengths differ; and when it does,
    it has called neither the engine nor anything else, and the object,
    engine and counter included, is as it was. *)
Theorem generate_rejects_bad_arguments
    {SamplingParams : Type} (SamplingParams_default : SamplingParams)
    `{Eng : Engine SamplingParams}
    fuel prompts sampling_params prompt_token_ids use_tqdm (self : LLM) :
  let r := generate SamplingParams_default fuel prompts sampling_params
             prompt_token_ids use_tqdm self in
  ((∃ msg, result r = Raised (ValueError msg)) ↔
   invalid_args prompts prompt_token_ids) ∧
  (invalid_args prompts prompt_token_ids → trace r = [] ∧ final r = self).
Proof.
  cbv zeta. split; [split|].
  - intros [msg Hres].
    destruct (decide (invalid_args prompts prompt_token_ids)) as [|Hok]; [done|].
    exfalso.
    destruct (generate_run SamplingParams_default fuel prompts sampling_params
                prompt_token_ids use_tqdm self Hok) as [(err & _ & Hg)|[_ Hg]];
      cbv zeta in Hg; rewrite Hg in Hres; cbn [result] in Hres; [done|].
    by apply poll_raised in Hres as (err & ? & _).
  - intros Hbad.
    destruct (generate_invalid SamplingParams_default _ _ Hbad) as [msg Hg].
    exists msg. by rewrite Hg.
  - intros Hbad.
    destruct (generate_invalid SamplingParams_default _ _ Hbad) as [msg Hg].
    by rewrite Hg.
Qed.

(** Two prompts against three token lists: rejected, with the engine
    untouched. *)
Lemma generate_rejects_bad_arguments_witness :
  let prompts := Some (PromptList ["x"; "y"]) in
  let prompt_token_ids := Some [[1]; [2]; [3]] in
  let self := Fake.fresh [] None in
  let r := Fake.run 1 prompts None prompt_token_ids true self in
  invalid_args prompts prompt_token_ids ∧ trace r = [] ∧ final r = self.
Proof.
  cbv zeta.
  assert (invalid_args (Some (PromptList ["x"; "y"])) (Some [[1]; [2]; [3]])) as Hbad.
  { right. exists ["x"; "y"], [[1]; [2]; [3]]. repeat split. cbn. lia. }
  split; [exact Hbad|].
  exact (proj2 (generate_rejects_bad_arguments Fake.SamplingParams_default
                  1 _ None _ true (Fake.fresh [] None)) Hbad).
Defined.

(** C3: the engine keeps its contract and holds nothing unfinished when
    the call starts.  Then a call for a non-empty list of prompts, given
    enough rounds of the poll loop, returns; the returned list has one
    output for each prompt: its request ids are, up to order, the ids
    issued for the prompts, one each, and no id occurs twice. *)
Theorem one_output_per_prompt
    {SamplingParams : Type} (SamplingParams_default : SamplingParams)
    `{Eng : Engine SamplingParams} (L : Ledger)
    (l : list string) sampling_params use_tqdm (self : LLM) :
  honours L →
  l ≠ [] →
  sound L (aphrodite self) →
  unfinished L (aphrodite self) = [] →
  ∃ fuel0, ∀ fuel, (fuel0 ≤ fuel)%nat →
    ∃ outs,
      result (generate SamplingParams_default fuel (Some (PromptList l))
                sampling_params None use_tqdm self) = Returned outs ∧
      length outs = length l ∧
      NoDup (request_id <$> outs) ∧
      request_id <$> outs ≡ₚ
        str <$> (Counter_take (length l) (request_counter self)).1.
Proof.
  intros HL _ Hsound Hidle.
  destruct (contract_generate SamplingParams_default L HL l sampling_params use_tqdm
              self Hsound Hidle) as [fuel0 Hrun].
  exists fuel0. intros fuel Hfuel. destruct (Hrun fuel Hfuel) as (outs & Hres & Hids).
  exists outs. split; [done|]. split; [|split; [|done]].
  - apply Permutation_length in Hids.
    rewrite !length_fmap, Counter_take_spec in Hids. cbn [fst] in Hids.
    by rewrite length_fmap, length_seq in Hids.
  - rewrite Hids. apply Counter_ids_NoDup.
Qed.

(** The scenario of the specification once more: three prompts, "b"
    ends first. *)
Lemma one_output_per_prompt_witness :
  let l := ["a"; "b"; "c"] in
  let self := Fake.fresh [Fake.Finish ["b"]; Fake.Finish ["a"; "c"]] None in
  (honours Fake.ledger ∧
   l ≠ [] ∧
   sound Fake.ledger (aphrodite self) ∧
   unfinished Fake.ledger (aphrodite self) = []) ∧
  ∃ fuel0, ∀ fuel, (fuel0 ≤ fuel)%nat →
    ∃ outs,
      result (Fake.run fuel (Some (PromptList l)) None None true self) = Returned outs ∧
      length outs = 3%nat ∧
      NoDup (request_id <$> outs) ∧
      request_id <$> outs ≡ₚ ["0"; "1"; "2"].
Proof.
  intros l self.
  assert (l ≠ []) as Hl by done.
  assert (sound Fake.ledger (aphrodite self)) as Hsound.
  { split; [done|]. repeat constructor; by eexists. }
  assert (unfinished Fake.ledger (aphrodite self) = []) as Hidle by done.
  split; [by pose proof FakeContract.fake_honours|].
  exact (one_output_per_prompt Fake.SamplingParams_default Fake.ledger
           l None true self FakeContract.fake_honours Hl Hsound Hidle).
Defined.

(** C4: the counter hands out strictly increasing values, so a later
    value is greater than every earlier one and renders as a different
    string; the ids issued over any number of consecutive calls of
    [generate] on one object are the renderings of consecutive counter
    values, and therefore pairwise distinct; and [N] calls that come
    back, each for a batch of [M] requests, issue [N * M] ids. *)
Theorem request_ids_never_repeat
    {SamplingParams : Type} (SamplingParams_default : SamplingParams)
    `{Eng : Engine SamplingParams}
    (k : nat) (c : Counter) (calls : list invocation) (self : LLM) (M : nat) :
  let vs := (Counter_take k c).1 in
  let runs := session SamplingParams_default calls self in
  (∀ i j vi vj, (i < j)%nat → vs !! i = Some vi → vs !! j = Some vj →
                vi < vj ∧ str vi ≠ str vj) ∧
  (∃ m, session_ids runs = str <$> (Counter_take m (request_counter self)).1) ∧
  NoDup (session_ids runs) ∧
  (Forall (λ c, ¬ invalid_args (inv_prompts c) (inv_prompt_token_ids c) ∧
                batch_size (inv_prompts c) (inv_prompt_token_ids c) = M) calls →
   Forall returned runs →
   length (session_ids runs) = (length calls * M)%nat).
Proof.
  cbv zeta. split; [|split; [|split]].
  - rewrite Counter_take_spec. cbn [fst]. intros i j vi vj Hij Hi Hj.
    apply list_lookup_fmap_Some in Hi as (i' & -> & Hi).
    apply list_lookup_fmap_Some in Hj as (j' & -> & Hj).
    apply lookup_seq in Hi as [-> _]. apply lookup_seq in Hj as [-> _].
    assert (c + Z.of_nat (0 + i) < c + Z.of_nat (0 + j)) as Hlt by lia.
    split; [done|]. intros Heq%str_inj. lia.
  - apply session_ids_spec.
  - apply session_ids_NoDup.
  - apply session_count.
Qed.

(** Two calls for two prompts each on a fresh driver issue "0" to "3". *)
Lemma request_ids_never_repeat_witness :
  let call := {| inv_fuel := 1; inv_prompts := Some (PromptList ["p"; "q"]);
                 inv_sampling_params := None; inv_prompt_token_ids := None;
                 inv_use_tqdm := false |} in
  let runs := session Fake.SamplingParams_default [call; call] (Fake.fresh [] None) in
  (Forall (λ c, ¬ invalid_args (inv_prompts c) (inv_prompt_token_ids c) ∧
                batch_size (inv_prompts c) (inv_prompt_token_ids c) = 2%nat)
     [call; call] ∧
   Forall returned runs) ∧
  length (session_ids runs) = 4%nat.
Proof.
  intros call runs.
  assert (Forall (λ c, ¬ invalid_args (inv_prompts c) (inv_prompt_token_ids c) ∧
                       batch_size (inv_prompts c) (inv_prompt_token_ids c) = 2%nat)
            [call; call]) as Hcalls.
  { repeat constructor; intros [[? _]|(l & t & _ & ? & _)]; done. }
  assert (Forall returned runs) as Hruns.
  { vm_compute. repeat constructor; eexists; reflexivity. }
  split; [by split|].
  exact (proj2 (proj2 (proj2
           (request_ids_never_repeat Fake.SamplingParams_default 0 0
              [call; call] (Fake.fresh [] None) 2))) Hcalls Hruns).
Defined.

Example two_calls_issue_four_ids :
  let call := {| inv_fuel := 1; inv_prompts := Some (PromptList ["p"; "q"]);
                 inv_sampling_params := None; inv_prompt_token_ids := None;
                 inv_use_tqdm := false |} in
  session_ids (session Fake.SamplingParams_default [call; call] (Fake.fresh [] None))
    = ["0"; "1"; "2"; "3"].
Proof. vm_compute. reflexivity. Qed.

(** C5: a bare prompt string and the list holding just that string make
    the same call: same check of the arguments, same calls to the
    engine, same final object, same result. *)
Theorem bare_prompt_is_singleton_batch
    {SamplingParams : Type} (SamplingParams_default : SamplingParams)
    `{Eng : Engine SamplingParams}
    fuel (s : string) sampling_params prompt_token_ids use_tqdm (self : LLM) :
  generate SamplingParams_default fuel (Some (PromptStr s)) sampling_params
    prompt_token_ids use_tqdm self =
  generate SamplingParams_default fuel (Some (PromptList [s])) sampling_params
    prompt_token_ids use_tqdm self.
Proof. by destruct prompt_token_ids. Qed.

(** C6: a call with acceptable arguments hands the requests to the
    engine in input order.  The [i]-th call of [add_request] carries the
    [i]-th counter value as its id, [prompts[i]] (nothing when only token
    ids are given), [prompt_token_ids[i]] (nothing when only prompts are
    given), and the one sampling configuration of the call: the
    caller's, or the default.  All requests of the batch go out, unless
    an [add_request] raises, which ends the call. *)
Theorem submissions_follow_input_order
    {SamplingParams : Type} (SamplingParams_default : SamplingParams)
    `{Eng : Engine SamplingParams}
    fuel prompts sampling_params prompt_token_ids use_tqdm (self : LLM) :
  ¬ invalid_args prompts prompt_token_ids →
  let r := generate SamplingParams_default fuel prompts sampling_params
             prompt_token_ids use_tqdm self in
  let n := batch_size prompts prompt_token_ids in
  let subs := submissions (trace r) in
  (∀ l, listify prompts = Some l → length l = n) ∧
  (∀ t, prompt_token_ids = Some t → length t = n) ∧
  (length subs ≤ n)%nat ∧
  (∀ i, (i < length subs)%nat →
     subs !! i = Some (str (request_counter self + Z.of_nat i),
                       nth_prompt (listify prompts) i,
                       default SamplingParams_default sampling_params,
                       nth_token_ids prompt_token_ids i)) ∧
  (length subs = n ∨
   ∃ c err, last (trace r) = Some c ∧ is_Some (submission c) ∧
            failure c = Some err ∧ result r = Raised (EngineError err)).
Proof.
  intros Hok. cbv zeta.
  destruct (batch_size_spec _ _ Hok) as [Hlen_p Hlen_t].
  split; [done|]. split; [done|].
  destruct (generate_valid SamplingParams_default fuel prompts sampling_params
              prompt_token_ids use_tqdm self Hok) as [Hr _].
  destruct (submit_all_submissions _ (default SamplingParams_default sampling_params)
              _ _ self Hr) as (m & Hm & _ & Hsubs & Hall).
  assert (submissions (trace (generate SamplingParams_default fuel prompts
            sampling_params prompt_token_ids use_tqdm self)) =
          submissions (trace (submit_from (listify prompts)
            (default SamplingParams_default sampling_params) prompt_token_ids 0
            (batch_size prompts prompt_token_ids) self))) as Heq.
  { destruct (generate_run SamplingParams_default fuel prompts sampling_params
                prompt_token_ids use_tqdm self Hok) as [(err & _ & Hg)|[_ Hg]];
      cbv zeta in Hg; rewrite Hg; cbn [trace]; [done|].
    rewrite !submissions_app.
    rewrite (proj1 (proj2 (proj2 (opening_readings _ _)))).
    rewrite (proj1 (proj2 (proj2 (closing_readings _ _)))).
    rewrite (proj1 (poll_quiet _ _ _ _)). by rewrite !app_nil_r. }
  rewrite Heq, Hsubs, length_fmap, length_seq.
  split; [done|]. split.
  - intros i Hi. rewrite list_lookup_fmap, lookup_seq_lt by done. done.
  - destruct (generate_run SamplingParams_default fuel prompts sampling_params
                prompt_token_ids use_tqdm self Hok) as [(err & Hs & Hg)|[Hs Hg]];
      cbv zeta in Hg; rewrite Hg; cbn [trace result].
    + right.
      destruct (submit_all_raised _ _ _ _ _ _ Hr Hs) as (c & err' & [= <-] & Hl & Hc & Hf).
      by exists c, err.
    + left. by apply Hall.
Qed.

(** Two prompts paired with two token lists, no sampling parameters. *)
Lemma submissions_follow_input_order_witness :
  let prompts := Some (PromptList ["x"; "y"]) in
  let prompt_token_ids := Some [[1]; [2; 3]] in
  let r := Fake.run 5 prompts None prompt_token_ids false (Fake.fresh [] None) in
  ¬ invalid_args prompts prompt_token_ids ∧
  submissions (trace r) !! 1%nat =
    Some ("1", Some "y", Fake.SamplingParams_default, Some [2; 3]).
Proof.
  cbv zeta.
  assert (¬ invalid_args (Some (PromptList ["x"; "y"])) (Some [[1]; [2; 3]])) as Hok.
  { intros [[? _]|(l & t & [= <-] & [= <-] & Hne)]; [done|]. by apply Hne. }
  split; [exact Hok|].
  destruct (submissions_follow_input_order Fake.SamplingParams_default 5
              _ None _ false (Fake.fresh [] None) Hok) as (_ & _ & _ & Hi & _).
  apply (Hi 1%nat). vm_compute. lia.
Defined.

(** C7: a run of [_run_engine] with the progress bar on creates the bar
    with the engine's count of unfinished requests at that moment as its
    total and moves it by one once for each finished output it collects;
    when the run returns, the bar has moved once for each output in the
    returned list and is closed once, at the end. *)
Theorem progress_bar_accounting
    {SamplingParams : Type} `{Eng : Engine SamplingParams}
    fuel (self : LLM) :
  let r := _run_engine fuel true self in
  progress (trace r) =
    TqdmNew (get_num_unfinished_requests (aphrodite self))
      :: replicate (length (completions (trace r))) (TqdmUpdate 1)
      ++ closing true (result r) ∧
  ∀ outs, result r = Returned outs →
    progress (trace r) =
      TqdmNew (get_num_unfinished_requests (aphrodite self))
        :: replicate (length outs) (TqdmUpdate 1) ++ [TqdmClose].
Proof.
  cbv zeta. rewrite _run_engine_eq. cbv zeta. cbn [trace result].
  assert (progress (opening true self ++ trace (poll fuel true [] self) ++
                    closing true (result (poll fuel true [] self))) =
          TqdmNew (get_num_unfinished_requests (aphrodite self))
            :: replicate (length (completions (trace (poll fuel true [] self))))
                 (TqdmUpdate 1)
            ++ closing true (result (poll fuel true [] self))) as Hall.
  { rewrite !progress_app, poll_progress. unfold opening, closing.
    by destruct (result (poll fuel true [] self)). }
  split.
  - rewrite Hall, !completions_app.
    rewrite (proj1 (opening_readings _ _)), (proj1 (closing_readings _ _)).
    by rewrite app_nil_r.
  - intros outs Hres. rewrite Hall, Hres.
    apply poll_completions in Hres. cbn in Hres. by rewrite <- Hres.
Qed.

(** The engine already holds a request when the loop starts with two
    more: the bar counts three. *)
Lemma progress_bar_accounting_witness :
  let e := {| Fake.pending := [ {| Fake.rid := "7"; Fake.rprompt := Some "z" |};
                               {| Fake.rid := "8"; Fake.rprompt := Some "a" |};
                               {| Fake.rid := "9"; Fake.rprompt := Some "b" |} ];
              Fake.plan := [Fake.Finish ["b"]; Fake.Finish []];
              Fake.capacity := None |} in
  let self := Fake.driver e 10 in
  let outs := [ {| request_id := "9"; text := "b"; finished := true |};
                {| request_id := "7"; text := "z"; finished := true |};
                {| request_id := "8"; text := "a"; finished := true |} ] in
  result (_run_engine 3 true self) = Returned outs ∧
  progress (trace (_run_engine 3 true self)) =
    [TqdmNew 3; TqdmUpdate 1; TqdmUpdate 1; TqdmUpdate 1; TqdmClose].
Proof.
  intros e self outs.
  assert (result (_run_engine 3 true self) = Returned outs) as Hres
    by (vm_compute; reflexivity).
  split; [exact Hres|].
  exact (proj2 (progress_bar_accounting 3 self) outs Hres).
Defined.

(** A call of [generate] for one prompt on an engine that still holds a
    request from before: the total of the bar is two. *)
Example progress_total_exceeds_batch :
  let e := {| Fake.pending := [ {| Fake.rid := "0"; Fake.rprompt := Some "old" |} ];
              Fake.plan := []; Fake.capacity := None |} in
  let r := Fake.run 1 (Some (PromptStr "new")) None None true (Fake.driver e 1) in
  progress (trace r) = [TqdmNew 2; TqdmUpdate 1; TqdmUpdate 1; TqdmClose] ∧
  (∃ outs, result r = Returned outs ∧ request_id <$> outs = ["0"; "1"]).
Proof. cbv zeta. split; [vm_compute; reflexivity|]. eexists. split; vm_compute; reflexivity. Qed.

(** C8: the progress bar only watches.  With and without it a call
    ends the same way (same returned list, same error, or still running
    alike), leaves the same object behind, and makes the same calls of
    [add_request], [step] and [has_unfinished_requests], with the same
    answers, in the same order. *)
Theorem progress_bar_is_observational
    {SamplingParams : Type} (SamplingParams_default : SamplingParams)
    `{Eng : Engine SamplingParams}
    fuel prompts sampling_params prompt_token_ids (self : LLM) :
  let r1 := generate SamplingParams_default fuel prompts sampling_params
              prompt_token_ids true self in
  let r0 := generate SamplingParams_default fuel prompts sampling_params
              prompt_token_ids false self in
  result r1 = result r0 ∧ final r1 = final r0 ∧
  driving (trace r1) = driving (trace r0) ∧
  submissions (trace r1) = submissions (trace r0) ∧
  driving (trace r0) = trace r0.
Proof.
  cbv zeta.
  destruct (decide (invalid_args prompts prompt_token_ids)) as [Hbad|Hok].
  { destruct (generate_invalid SamplingParams_default _ _ Hbad) as [msg Hg].
    by rewrite !Hg. }
  destruct (generate_valid SamplingParams_default fuel prompts sampling_params
              prompt_token_ids true self Hok) as [Hr _].
  destruct (submit_all_silent _ (default SamplingParams_default sampling_params)
              _ _ self Hr) as (_ & _ & Hsd).
  destruct (generate_run SamplingParams_default fuel prompts sampling_params
              prompt_token_ids true self Hok) as [(err1 & Hs1 & Hg1)|[Hs1 Hg1]];
  destruct (generate_run SamplingParams_default fuel prompts sampling_params
              prompt_token_ids false self Hok) as [(err0 & Hs0 & Hg0)|[Hs0 Hg0]];
    cbv zeta in Hg1, Hg0; rewrite Hg1, Hg0; cbn [trace result final].
  - rewrite Hs1 in Hs0. by injection Hs0 as ->.
  - by rewrite Hs1 in Hs0.
  - by rewrite Hs1 in Hs0.
  - destruct (poll_erasure fuel []
                (final (submit_from (listify prompts)
                          (default SamplingParams_default sampling_params)
                          prompt_token_ids 0
                          (batch_size prompts prompt_token_ids) self)))
      as (Hres & Hfin & Hd1 & Hd0).
    destruct (poll_quiet fuel true []
                (final (submit_from (listify prompts)
                          (default SamplingParams_default sampling_params)
                          prompt_token_ids 0
                          (batch_size prompts prompt_token_ids) self)))
      as (Hq1 & _).
    destruct (poll_quiet fuel false []
                (final (submit_from (listify prompts)
                          (default SamplingParams_default sampling_params)
                          prompt_token_ids 0
                          (batch_size prompts prompt_token_ids) self)))
      as (Hq0 & _).
    repeat split; try done.
    + rewrite !driving_app, Hd1, Hd0.
      rewrite !(proj1 (proj2 (proj2 (proj2 (opening_readings _ _))))).
      by rewrite !(proj1 (proj2 (proj2 (proj2 (closing_readings _ _))))).
    + rewrite !submissions_app, Hq1, Hq0.
      rewrite !(proj1 (proj2 (proj2 (opening_readings _ _)))).
      by rewrite !(proj1 (proj2 (proj2 (closing_readings _ _)))).
    + rewrite !driving_app, Hd0, Hsd.
      rewrite (proj1 (proj2 (proj2 (proj2 (opening_readings _ _))))).
      rewrite (proj1 (proj2 (proj2 (proj2 (closing_readings _ _))))).
      unfold opening, closing. by destruct (result (poll fuel false [] _)).
Qed.

(** C9: an error raised by [add_request] or by [step] ends the call: the
    raising call is the last call [generate] makes (nothing is retried),
    and [generate] raises that very error, so no list, partial or not,
    comes back. *)
Theorem engine_errors_propagate
    {SamplingParams : Type} (SamplingParams_default : SamplingParams)
    `{Eng : Engine SamplingParams}
    fuel prompts sampling_params prompt_token_ids use_tqdm (self : LLM) c err :
  let r := generate SamplingParams_default fuel prompts sampling_params
             prompt_token_ids use_tqdm self in
  c ∈ trace r → failure c = Some err →
  result r = Raised (EngineError err) ∧ last (trace r) = Some c.
Proof.
  cbv zeta. intros Hc Hf.
  destruct (decide (invalid_args prompts prompt_token_ids)) as [Hbad|Hok].
  { destruct (generate_invalid SamplingParams_default _ _ Hbad) as [msg Hg].
    rewrite Hg in Hc. by apply elem_of_nil in Hc. }
  destruct (generate_valid SamplingParams_default fuel prompts sampling_params
              prompt_token_ids use_tqdm self Hok) as [Hr _].
  destruct (submit_all_failure _ (default SamplingParams_default sampling_params)
              _ _ self Hr) as [_ Hsub].
  destruct (generate_run SamplingParams_default fuel prompts sampling_params
              prompt_token_ids use_tqdm self Hok) as [(err' & Hs & Hg)|[Hs Hg]];
    cbv zeta in Hg; rewrite Hg in Hc |- *; cbn [trace result] in *.
  - destruct (Hsub _ _ Hc Hf) as [Hres Hlast]. split; [|done].
    rewrite Hs in Hres. by injection Hres as ->.
  - apply elem_of_app in Hc as [Hc|Hc].
    { destruct (Hsub _ _ Hc Hf) as [Hres _]. by rewrite Hs in Hres. }
    apply elem_of_app in Hc as [Hc|Hc].
    { apply opening_readings in Hc. by rewrite Hc in Hf. }
    apply elem_of_app in Hc as [Hc|Hc].
    + destruct (poll_failure _ _ _ _ _ _ Hc Hf) as [Hres Hlast].
      split; [done|]. rewrite Hres. unfold closing.
      by rewrite app_nil_r, !last_app, Hlast.
    + apply closing_readings in Hc. by rewrite Hc in Hf.
Qed.

(** The engine ends "b" in its first step and fails in its second: the
    caller gets the error, and not the output already collected. *)
Lemma engine_errors_propagate_witness :
  let r := Fake.run 5 (Some (PromptList ["a"; "b"; "c"])) None None false
             (Fake.fresh [Fake.Finish ["b"]; Fake.Crash "out of memory"] None) in
  let c := Step (inl "out of memory") in
  (c ∈ trace r ∧ failure c = Some "out of memory" ∧
   request_id <$> completions (trace r) = ["1"]) ∧
  result r = Raised (EngineError "out of memory") ∧ last (trace r) = Some c.
Proof.
  cbv zeta.
  assert (Step (inl "out of memory") ∈
          trace (Fake.run 5 (Some (PromptList ["a"; "b"; "c"])) None None false
                   (Fake.fresh [Fake.Finish ["b"]; Fake.Crash "out of memory"] None)))
    as Hc.
  { vm_compute. do 6 apply list_elem_of_further. apply list_elem_of_here. }
  split; [split; [exact Hc|split; vm_compute; reflexivity]|].
  exact (engine_errors_propagate Fake.SamplingParams_default 5 _ None None false
           _ _ "out of memory" Hc eq_refl).
Defined.

(** C10: an empty list of prompts is an acceptable argument.  The call
    raises no [ValueError], hands no request to the engine and leaves the
    counter where it was; and if the engine has nothing unfinished, it
    returns the empty list without changing the object. *)
Theorem generate_empty_batch
    {SamplingParams : Type} (SamplingParams_default : SamplingParams)
    `{Eng : Engine SamplingParams}
    fuel sampling_params use_tqdm (self : LLM) :
  let r := generate SamplingParams_default fuel (Some (PromptList []))
             sampling_params None use_tqdm self in
  (∀ msg, result r ≠ Raised (ValueError msg)) ∧
  submissions (trace r) = [] ∧
  request_counter (final r) = request_counter self ∧
  (has_unfinished_requests (aphrodite self) = false →
   result r = Returned [] ∧ final r = self).
Proof.
  cbv zeta.
  assert (generate SamplingParams_default fuel (Some (PromptList []))
            sampling_params None use_tqdm self = _run_engine fuel use_tqdm self) as ->.
  { unfold generate, submit_all, bind. cbn. by destruct (_run_engine _ _ _). }
  rewrite _run_engine_eq. cbv zeta. cbn [trace result final].
  destruct (poll_quiet fuel use_tqdm [] self) as (Hs & _ & Hc).
  split; [|split; [|split]].
  - intros msg Hres. by apply poll_raised in Hres as (err & ? & _).
  - rewrite !submissions_app, Hs.
    by rewrite (proj1 (proj2 (proj2 (opening_readings _ _)))),
               (proj1 (proj2 (proj2 (closing_readings _ _)))).
  - done.
  - intros Hidle. by rewrite poll_eq, Hidle.
Qed.

Lemma generate_empty_batch_witness :
  let self := Fake.fresh [Fake.Finish ["a"]] None in
  let r := Fake.run 0 (Some (PromptList [])) None None true self in
  has_unfinished_requests (aphrodite self) = false ∧
  result r = Returned [] ∧ final r = self.
Proof.
  cbv zeta. split; [reflexivity|].
  apply (generate_empty_batch Fake.SamplingParams_default 0 None true
           (Fake.fresh [Fake.Finish ["a"]] None)).
  reflexivity.
Defined.

(** ** More about the loops *)
Section LoopFacts.

Context {SamplingParams : Type}.
Context (SamplingParams_default : SamplingParams).
Context `{Eng : Engine SamplingParams}.

Implicit Types (self : LLM) (tr : list call) (outputs : list RequestOutput).

(** The loop returns only once the engine says nothing is unfinished. *)
Lemma poll_drained fuel use_tqdm outputs self outs :
  result (poll fuel use_tqdm outputs self) = Returned outs →
  has_unfinished_requests (aphrodite (final (poll fuel use_tqdm outputs self))) = false.
Proof.
  revert outs. pattern fuel, outputs, self, (poll fuel use_tqdm outputs self).
  apply poll_ind; clear; cbn [trace result final]; [| | |by auto].
  - by intros.
  - by intros.
  - by intros.
Qed.

Lemma submissions_nil_Forall tr :
  submissions tr = [] → Forall (λ c, submission c = None) tr.
Proof.
  induction tr as [|c tr IH]; [constructor|].
  unfold submissions in *. cbn. destruct (submission c) eqn:Hc; [done|].
  intros Htr. constructor; [done|]. by apply IH.
Qed.

(** The submission loop makes calls of [add_request] only. *)
Lemma submit_only_adds prompts sampling_params prompt_token_ids i k self :
  in_range prompts prompt_token_ids (i + k) →
  Forall (λ c, is_Some (submission c))
    (trace (submit_from prompts sampling_params prompt_token_ids i k self)).
Proof.
  intros Hr.
  pattern i, k, self, (submit_from prompts sampling_params prompt_token_ids i k self).
  apply submit_from_ind; [| | |done]; clear; cbn [trace result final].
  - constructor.
  - intros. by repeat constructor.
  - intros i k self e r _ _ IH. by constructor.
Qed.

Lemma submit_all_only_adds prompts sampling_params prompt_token_ids n self :
  in_range prompts prompt_token_ids n →
  Forall (λ c, is_Some (submission c))
    (trace (submit_from prompts sampling_params prompt_token_ids 0 n self)).
Proof. intros Hr. by apply (submit_only_adds _ _ _ 0 n). Qed.

(** What follows the submission loop submits nothing. *)
Lemma run_engine_no_submission fuel use_tqdm self :
  submissions (opening use_tqdm self ++ trace (poll fuel use_tqdm [] self) ++
               closing use_tqdm (result (poll fuel use_tqdm [] self))) = [].
Proof.
  rewrite !submissions_app, (proj1 (poll_quiet _ _ _ _)).
  by rewrite (proj1 (proj2 (proj2 (opening_readings _ _)))),
             (proj1 (proj2 (proj2 (closing_readings _ _)))).
Qed.

(** *** Steps are guarded *)

Lemma steps_guarded_app tr1 tr2 :
  steps_guarded tr1 → steps_guarded tr2 → steps_guarded (tr1 ++ tr2).
Proof.
  intros H1 H2 i answer [Hi|[Hlen Hi]]%lookup_app_Some.
  - destruct (H1 _ _ Hi) as (j & -> & Hj). exists j. split; [done|].
    by apply lookup_app_l_Some.
  - destruct (H2 _ _ Hi) as (j & Hij & Hj). exists (length tr1 + j)%nat.
    split; [lia|]. rewrite lookup_app_r by lia.
    by replace (length tr1 + j - length tr1)%nat with j by lia.
Qed.

Lemma steps_guarded_quiet tr :
  (∀ c answer, c ∈ tr → c ≠ Step answer) → steps_guarded tr.
Proof.
  intros Hq i answer Hi. destruct (Hq (Step answer) answer); [|done].
  apply list_elem_of_lookup. by exists i.
Qed.

Lemma updates_quiet use_tqdm step_outputs c :
  c ∈ updates use_tqdm step_outputs → c = TqdmUpdate 1.
Proof.
  rewrite updates_spec. destruct use_tqdm; [|by intros ?%elem_of_nil].
  apply elem_of_replicate_inv.
Qed.

Lemma poll_guarded fuel use_tqdm outputs self :
  steps_guarded (trace (poll fuel use_tqdm outputs self)).
Proof.
  pattern fuel, outputs, self, (poll fuel use_tqdm outputs self).
  apply poll_ind; clear; cbn [trace result final].
  - intros. apply steps_guarded_quiet. by intros c a ->%list_elem_of_singleton.
  - intros. apply steps_guarded_quiet. by intros c a ->%list_elem_of_singleton.
  - intros k outputs self e err _ _ [|[|i]] answer Hi; [done|by exists O|done].
  - intros k outputs self e outs r _ _ _ IH.
    apply (steps_guarded_app [HasUnfinished true; Step (inr outs)]).
    { intros [|[|i]] answer Hi; [done|by exists O|done]. }
    apply steps_guarded_app; [|done].
    apply steps_guarded_quiet. by intros c a ->%updates_quiet.
Qed.

(** *** The bar is closed by [_run_engine] alone *)

Lemma poll_no_close fuel use_tqdm outputs self :
  TqdmClose ∉ trace (poll fuel use_tqdm outputs self).
Proof.
  intros Hc.
  assert (TqdmClose ∈ progress (trace (poll fuel use_tqdm outputs self))) as Hp.
  { apply list_elem_of_filter. by split. }
  rewrite poll_progress in Hp. destruct use_tqdm; [|by apply elem_of_nil in Hp].
  by apply elem_of_replicate_inv in Hp.
Qed.

Lemma closing_close {A} use_tqdm (res : outcome A) :
  TqdmClose ∈ closing use_tqdm res ↔ use_tqdm = true ∧ ∃ a, res = Returned a.
Proof.
  unfold closing. destruct res as [a| |], use_tqdm; split.
  all: try by intros ?%elem_of_nil.
  all: try by intros [? [? ?]].
  - intros _. split; [done|]. by exists a.
  - intros _. apply list_elem_of_here.
Qed.

End LoopFacts.

(** ** An engine that keeps its side and is not idle *)
Section UnderContractBusy.

Context {SamplingParams : Type}.
Context (SamplingParams_default : SamplingParams).
Context `{Eng : Engine SamplingParams}.
Context (L : Ledger) (HL : honours L).

(** Given enough rounds, the poll loop leaves the engine with nothing
    unfinished. *)
Lemma contract_poll_final fuel use_tqdm outputs (self : LLM) :
  sound L (aphrodite self) →
  (budget L (aphrodite self) ≤ fuel)%nat →
  sound L (aphrodite (final (poll fuel use_tqdm outputs self))) ∧
  unfinished L (aphrodite (final (poll fuel use_tqdm outputs self))) = [].
Proof.
  revert outputs self. induction fuel as [|fuel IH]; intros outputs self Hsound Hfuel;
    rewrite poll_eq, (contract_query L HL _ Hsound);
    destruct (decide (unfinished L (aphrodite self) = [])) as [Hnil|Hsome].
  - by rewrite bool_decide_false by (by intros []).
  - destruct (contract_step L HL _ Hsound Hsome) as (? & ? & _ & _ & _ & ?). lia.
  - by rewrite bool_decide_false by (by intros []).
  - rewrite bool_decide_true by done.
    destruct (contract_step L HL _ Hsound Hsome)
      as (e' & outs & -> & Hsound' & Hperm & Hb).
    cbv zeta. cbn [final]. apply IH; [done|cbn; lia].
Qed.

(** A call with acceptable arguments, given enough rounds, returns one
    output for each id it issued and one for each request the engine
    held before. *)
Lemma contract_generate_busy prompts sampling_params prompt_token_ids use_tqdm
    (self : LLM) :
  ¬ invalid_args prompts prompt_token_ids →
  sound L (aphrodite self) →
  ∃ fuel0, ∀ fuel, (fuel0 ≤ fuel)%nat →
    let r := generate SamplingParams_default fuel prompts sampling_params
               prompt_token_ids use_tqdm self in
    ∃ outs,
      result r = Returned outs ∧
      request_id <$> outs ≡ₚ
        (str <$> (Counter_take (batch_size prompts prompt_token_ids)
                    (request_counter self)).1) ++
        unfinished L (aphrodite self) ∧
      unfinished L (aphrodite (final r)) = [].
Proof.
  intros Hok Hsound.
  set (s := submit_from (listify prompts)
              (default SamplingParams_default sampling_params) prompt_token_ids 0
              (batch_size prompts prompt_token_ids) self).
  exists (budget L (aphrodite (final s))). intros fuel Hfuel. cbv zeta.
  destruct (generate_valid SamplingParams_default fuel _ sampling_params _
              use_tqdm self Hok) as [Hr _].
  destruct (contract_submit L HL _ (default SamplingParams_default sampling_params)
              _ 0 _ self Hr Hsound) as (Hs & Hsound' & Hperm).
  fold s in Hs, Hsound', Hperm.
  destruct (submit_all_submissions _ (default SamplingParams_default sampling_params)
              _ _ self Hr) as (m & _ & _ & Hsubs & Hall).
  fold s in Hsubs, Hall. specialize (Hall Hs). subst m.
  destruct (contract_poll L HL fuel use_tqdm [] (final s) Hsound' Hfuel)
    as (outs & Hres & Hids).
  destruct (contract_poll_final fuel use_tqdm [] (final s) Hsound' Hfuel)
    as [_ Hdry].
  exists outs.
  destruct (generate_run SamplingParams_default fuel _ sampling_params _
              use_tqdm self Hok) as [(err & Hs' & _)|[_ Hg]].
  { fold s in Hs'. by rewrite Hs in Hs'. }
  cbv zeta in Hg. fold s in Hg. rewrite Hg. cbn [result final].
  split; [done|]. split; [|done].
  rewrite Hids, Hperm, issued_ids_submissions, Hsubs.
  rewrite Counter_take_spec. cbn [fst]. by rewrite <- !list_fmap_compose.
Qed.

End UnderContractBusy.

(** ** The keywords of the constructor *)
Section ConstructionFacts.

Context {value : Type}.
Context (of_bool : bool → value) (of_int : Z → value) (of_str : string → value).

Lemma with_log_stats_default_lookup (kwargs : gmap string value) k :
  with_log_stats_default of_bool kwargs !! k =
    if decide (k = "disable_log_stats")
    then Some (default (of_bool true) (kwargs !! "disable_log_stats"))
    else kwargs !! k.
Proof.
  unfold with_log_stats_default.
  destruct (kwargs !! "disable_log_stats") as [v|] eqn:Hk; case_decide; subst.
  - done.
  - done.
  - by rewrite lookup_insert_eq.
  - by rewrite lookup_insert_ne.
Qed.

(** The four named arguments and a dictionary that has none of their
    names make one set of keywords, in which each name has its value. *)
Lemma call_keywords_disjoint {build_error : Type}
    (model dtype : string) (tensor_parallel_size seed : Z)
    (kwargs : gmap string value) :
  Forall (λ k, kwargs !! k = None) init_parameters →
  ∃ kw,
    call_keywords (build_error := build_error)
      [("model", of_str model);
       ("tensor_parallel_size", of_int tensor_parallel_size);
       ("dtype", of_str dtype);
       ("seed", of_int seed)] kwargs = inr kw ∧
    kw !! "model" = Some (of_str model) ∧
    kw !! "tensor_parallel_size" = Some (of_int tensor_parallel_size) ∧
    kw !! "dtype" = Some (of_str dtype) ∧
    kw !! "seed" = Some (of_int seed) ∧
    (∀ k, k ∉ init_parameters → kw !! k = kwargs !! k).
Proof.
  intros Hfree. unfold init_parameters in Hfree.
  apply Forall_cons in Hfree as [Hm Hfree].
  apply Forall_cons in Hfree as [Ht Hfree].
  apply Forall_cons in Hfree as [Hd Hfree].
  apply Forall_cons in Hfree as [Hs _].
  unfold call_keywords.
  assert (list_find (λ kv : string * value, is_Some (kwargs !! kv.1))
            [("model", of_str model);
             ("tensor_parallel_size", of_int tensor_parallel_size);
             ("dtype", of_str dtype);
             ("seed", of_int seed)] = None) as ->.
  { apply list_find_None. repeat constructor; cbn; intros [? ?]; congruence. }
  eexists. split; [done|]. cbn [list_to_map foldr uncurry fst snd].
  repeat split.
  - rewrite lookup_union_l' by (by rewrite lookup_insert_eq). by rewrite lookup_insert_eq.
  - rewrite lookup_union_l' by (by simplify_map_eq). by simplify_map_eq.
  - rewrite lookup_union_l' by (by simplify_map_eq). by simplify_map_eq.
  - rewrite lookup_union_l' by (by simplify_map_eq). by simplify_map_eq.
  - intros k Hk. unfold init_parameters in Hk.
    apply lookup_union_r. rewrite !not_elem_of_cons in Hk.
    destruct Hk as (? & ? & ? & ? & _). by simplify_map_eq.
Qed.

End ConstructionFacts.

(** ** Further properties of the driver *)

(** X1: when [generate] returns, the engine it leaves behind reports no
    unfinished request: the call comes back only after the engine has
    been run dry. *)
Theorem generate_drains_engine
    {SamplingParams : Type} (SamplingParams_default : SamplingParams)
    `{Eng : Engine SamplingParams}
    fuel prompts sampling_params prompt_token_ids use_tqdm (self : LLM) outs :
  result (generate SamplingParams_default fuel prompts sampling_params
            prompt_token_ids use_tqdm self) = Returned outs →
  has_unfinished_requests
    (aphrodite (final (generate SamplingParams_default fuel prompts sampling_params
                         prompt_token_ids use_tqdm self))) = false.
Proof.
  intros Hres.
  destruct (decide (invalid_args prompts prompt_token_ids)) as [Hbad|Hok].
  { destruct (generate_invalid SamplingParams_default _ _ Hbad) as [msg Hg].
    by rewrite Hg in Hres. }
  destruct (generate_run SamplingParams_default fuel prompts sampling_params
              prompt_token_ids use_tqdm self Hok) as [(err & _ & Hg)|[_ Hg]];
    cbv zeta in Hg; rewrite Hg in Hres |- *; cbn [result final] in *; [done|].
  by eapply poll_drained.
Qed.

Lemma generate_drains_engine_witness :
  let self := Fake.fresh [Fake.Finish ["b"]; Fake.Finish []] None in
  let r := Fake.run 3 (Some (PromptList ["a"; "b"])) None None false self in
  (∃ outs, result r = Returned outs) ∧
  has_unfinished_requests (aphrodite (final r)) = false.
Proof.
  intros self r.
  assert (result r = Returned
            [ {| request_id := "1"; text := "b"; finished := true |};
              {| request_id := "0"; text := "a"; finished := true |} ]) as Hres
    by (vm_compute; reflexivity).
  split; [by eexists|].
  exact (generate_drains_engine Fake.SamplingParams_default 3 _ None None false
           self _ Hres).
Defined.

(** X2: whatever the outcome of a call, the counter ends exactly as many
    steps further as [add_request] was called, the call that raised
    included: a request id is used up even when its submission fails,
    and the counter never moves back. *)
Theorem counter_counts_submissions
    {SamplingParams : Type} (SamplingParams_default : SamplingParams)
    `{Eng : Engine SamplingParams}
    fuel prompts sampling_params prompt_token_ids use_tqdm (self : LLM) :
  let r := generate SamplingParams_default fuel prompts sampling_params
             prompt_token_ids use_tqdm self in
  request_counter (final r) =
    request_counter self + Z.of_nat (length (submissions (trace r))) ∧
  request_counter self ≤ request_counter (final r).
Proof.
  cbv zeta.
  destruct (generate_ids SamplingParams_default fuel prompts sampling_params
              prompt_token_ids use_tqdm self) as (m & Hids & Hc & _).
  rewrite Counter_take_spec in Hids, Hc. cbn [fst snd] in Hids, Hc.
  assert (length (submissions (trace (generate SamplingParams_default fuel prompts
            sampling_params prompt_token_ids use_tqdm self))) = m) as Hlen.
  { apply (f_equal length) in Hids.
    by rewrite issued_ids_submissions, !length_fmap, length_seq in Hids. }
  rewrite Hlen, Hc. split; lia.
Qed.

(** X3: the whole batch is handed over before the engine is run: in the
    trace of a call every [add_request] comes before every other call. *)
Theorem submissions_come_first
    {SamplingParams : Type} (SamplingParams_default : SamplingParams)
    `{Eng : Engine SamplingParams}
    fuel prompts sampling_params prompt_token_ids use_tqdm (self : LLM) :
  ∃ tr1 tr2,
    trace (generate SamplingParams_default fuel prompts sampling_params
             prompt_token_ids use_tqdm self) = tr1 ++ tr2 ∧
    Forall (λ c, is_Some (submission c)) tr1 ∧
    Forall (λ c, submission c = None) tr2.
Proof.
  destruct (decide (invalid_args prompts prompt_token_ids)) as [Hbad|Hok].
  { destruct (generate_invalid SamplingParams_default _ _ Hbad) as [msg Hg].
    exists [], []. rewrite Hg. by repeat constructor. }
  destruct (generate_valid SamplingParams_default fuel prompts sampling_params
              prompt_token_ids use_tqdm self Hok) as [Hr _].
  pose proof (submit_all_only_adds _ (default SamplingParams_default sampling_params)
                _ _ self Hr) as Hadds.
  destruct (generate_run SamplingParams_default fuel prompts sampling_params
              prompt_token_ids use_tqdm self Hok) as [(err & _ & Hg)|[_ Hg]];
    cbv zeta in Hg; rewrite Hg; cbn [trace].
  - eexists _, []. rewrite app_nil_r. by repeat split.
  - eexists _, _. split; [done|]. split; [done|].
    apply submissions_nil_Forall, run_engine_no_submission.
Qed.

(** X4: the driver never runs an idle engine: in the trace of a call
    every call of [step] comes directly after a call of
    [has_unfinished_requests] that answered true. *)
Theorem steps_follow_unfinished_check
    {SamplingParams : Type} (SamplingParams_default : SamplingParams)
    `{Eng : Engine SamplingParams}
    fuel prompts sampling_params prompt_token_ids use_tqdm (self : LLM) i answer :
  let r := generate SamplingParams_default fuel prompts sampling_params
             prompt_token_ids use_tqdm self in
  trace r !! i = Some (Step answer) →
  ∃ j, i = S j ∧ trace r !! j = Some (HasUnfinished true).
Proof.
  cbv zeta. revert i answer.
  change (steps_guarded (trace (generate SamplingParams_default fuel prompts
            sampling_params prompt_token_ids use_tqdm self))).
  destruct (decide (invalid_args prompts prompt_token_ids)) as [Hbad|Hok].
  { destruct (generate_invalid SamplingParams_default _ _ Hbad) as [msg Hg].
    rewrite Hg. by intros i answer. }
  destruct (generate_valid SamplingParams_default fuel prompts sampling_params
              prompt_token_ids use_tqdm self Hok) as [Hr _].
  pose proof (submit_all_only_adds _ (default SamplingParams_default sampling_params)
                _ _ self Hr) as Hadds.
  assert (steps_guarded (trace (submit_from (listify prompts)
            (default SamplingParams_default sampling_params) prompt_token_ids 0
            (batch_size prompts prompt_token_ids) self))) as Hsub.
  { apply steps_guarded_quiet. intros c a Hc ->.
    rewrite Forall_forall in Hadds. by destruct (Hadds _ Hc). }
  destruct (generate_run SamplingParams_default fuel prompts sampling_params
              prompt_token_ids use_tqdm self Hok) as [(err & _ & Hg)|[_ Hg]];
    cbv zeta in Hg; rewrite Hg; cbn [trace]; [done|].
  apply steps_guarded_app; [done|]. apply steps_guarded_app.
  { apply steps_guarded_quiet. unfold opening. destruct use_tqdm.
    - by intros c a [->|[->|?%elem_of_nil]%elem_of_cons]%elem_of_cons.
    - by intros c a ?%elem_of_nil. }
  apply steps_guarded_app; [apply poll_guarded|].
  apply steps_guarded_quiet. intros c a Hc ->. unfold closing in Hc.
  destruct (result (poll fuel use_tqdm [] _)), use_tqdm;
    by (apply elem_of_nil in Hc || apply list_elem_of_singleton in Hc).
Qed.

Lemma steps_follow_unfinished_check_witness :
  let r := Fake.run 3 (Some (PromptList ["a"; "b"])) None None false
             (Fake.fresh [Fake.Finish ["b"]; Fake.Finish []] None) in
  let answer := inr [ {| request_id := "0"; text := "a"; finished := false |};
                      {| request_id := "1"; text := "b"; finished := true |} ] in
  trace r !! 3%nat = Some (Step answer) ∧
  ∃ j, 3%nat = S j ∧ trace r !! j = Some (HasUnfinished true).
Proof.
  intros r answer.
  assert (trace r !! 3%nat = Some (Step answer)) as Hi by (vm_compute; reflexivity).
  split; [exact Hi|].
  exact (steps_follow_unfinished_check Fake.SamplingParams_default 3 _ None None
           false _ 3%nat answer Hi).
Defined.

(** X5: the progress bar is closed exactly when the call returns with
    the bar on.  A call that raises, be it for its arguments, in
    [add_request] or in [step], never calls [pbar.close()]. *)
Theorem progress_bar_closed_iff_returned
    {SamplingParams : Type} (SamplingParams_default : SamplingParams)
    `{Eng : Engine SamplingParams}
    fuel prompts sampling_params prompt_token_ids use_tqdm (self : LLM) :
  let r := generate SamplingParams_default fuel prompts sampling_params
             prompt_token_ids use_tqdm self in
  TqdmClose ∈ trace r ↔ use_tqdm = true ∧ returned r.
Proof.
  cbv zeta. unfold returned.
  destruct (decide (invalid_args prompts prompt_token_ids)) as [Hbad|Hok].
  { destruct (generate_invalid SamplingParams_default _ _ Hbad) as [msg Hg].
    rewrite Hg. cbn. split; [by intros ?%elem_of_nil|by intros [_ [? ?]]]. }
  destruct (generate_valid SamplingParams_default fuel prompts sampling_params
              prompt_token_ids use_tqdm self Hok) as [Hr _].
  pose proof (submit_all_only_adds _ (default SamplingParams_default sampling_params)
                _ _ self Hr) as Hadds.
  rewrite Forall_forall in Hadds.
  destruct (generate_run SamplingParams_default fuel prompts sampling_params
              prompt_token_ids use_tqdm self Hok) as [(err & _ & Hg)|[_ Hg]];
    cbv zeta in Hg; rewrite Hg; cbn [trace result].
  - split; [|by intros [_ [? ?]]]. intros Hc. by destruct (Hadds _ Hc).
  - rewrite <- closing_close. split.
    + intros [Hc|[Hc|[Hc|Hc]%elem_of_app]%elem_of_app]%elem_of_app; [| | |done].
      * by destruct (Hadds _ Hc).
      * unfold opening in Hc. destruct use_tqdm; [|by apply elem_of_nil in Hc].
        by apply elem_of_cons in Hc as [?|[?|?%elem_of_nil]%elem_of_cons].
      * by apply poll_no_close in Hc.
    + intros Hc. do 3 (apply elem_of_app; right). done.
Qed.

(** X7: the exceptions that leave [generate] are its two [ValueError]s,
    each for its own fault in the arguments, and the errors of the
    engine, raised by the last call made.  Indexing the two lists never
    fails. *)
Theorem generate_raises_only
    {SamplingParams : Type} (SamplingParams_default : SamplingParams)
    `{Eng : Engine SamplingParams}
    fuel prompts sampling_params prompt_token_ids use_tqdm (self : LLM) x :
  let r := generate SamplingParams_default fuel prompts sampling_params
             prompt_token_ids use_tqdm self in
  result r = Raised x →
  (x = ValueError "Either prompts or prompt_token_ids must be provided." ∧
   prompts = None ∧ prompt_token_ids = None) ∨
  (x = ValueError "The lenghts of prompts and prompt_token_ids must be the same." ∧
   ∃ l t, listify prompts = Some l ∧ prompt_token_ids = Some t ∧
          length l ≠ length t) ∨
  (∃ c err, x = EngineError err ∧ last (trace r) = Some c ∧ failure c = Some err).
Proof.
  cbv zeta. intros Hres.
  destruct (decide (invalid_args prompts prompt_token_ids)) as [Hbad|Hok].
  { destruct Hbad as [[-> ->]|(l & t & Hl & -> & Hne)].
    - left. cbn in Hres. by injection Hres as <-.
    - right. left. unfold generate in Hres. destruct prompts as [arg|]; [|done].
      rewrite Hl, bool_decide_true in Hres by done. cbn in Hres.
      injection Hres as <-. split; [done|]. by exists l, t. }
  right. right.
  destruct (generate_valid SamplingParams_default fuel prompts sampling_params
              prompt_token_ids use_tqdm self Hok) as [Hr _].
  destruct (generate_run SamplingParams_default fuel prompts sampling_params
              prompt_token_ids use_tqdm self Hok) as [(err & Hs & Hg)|[_ Hg]];
    cbv zeta in Hg; rewrite Hg in Hres |- *; cbn [trace result] in *.
  - injection Hres as <-.
    destruct (submit_all_raised _ _ _ _ _ _ Hr Hs) as (c & err' & [= <-] & Hl & _ & Hf).
    by exists c, err.
  - pose proof Hres as Hres'.
    apply poll_raised in Hres as (err & -> & Hl).
    exists (Step (inl err)), err. split; [done|]. split; [|done].
    rewrite Hres'. unfold closing. by rewrite app_nil_r, !last_app, Hl.
Qed.

Lemma generate_raises_only_witness :
  let r := Fake.run 1 (Some (PromptList ["a"; "b"])) None None true
             (Fake.fresh [] (Some 1%nat)) in
  let c := AddRequest "1" (Some "b") Fake.SamplingParams_default None
             (Some "engine is full") in
  result r = Raised (EngineError "engine is full") ∧
  last (trace r) = Some c ∧ failure c = Some "engine is full".
Proof.
  intros r c.
  assert (result r = Raised (EngineError "engine is full")) as Hres
    by (vm_compute; reflexivity).
  split; [exact Hres|].
  destruct (generate_raises_only Fake.SamplingParams_default 1 _ None None true
              (Fake.fresh [] (Some 1%nat)) _ Hres)
    as [[? _]|[[? _]|(c' & err & Herr & Hl & Hf)]]; [done|done|].
  split; vm_compute; reflexivity.
Defined.

(** X6: [generate] waits for everything the engine holds, not for its
    own batch alone.  With an engine that keeps its contract, a call
    with acceptable arguments, given enough rounds, returns one output
    for each request of the batch and one for each request that was
    unfinished when the call started, so the returned list is longer
    than the batch by the number of those; and the engine is left with
    nothing unfinished. *)
Theorem generate_returns_leftovers_too
    {SamplingParams : Type} (SamplingParams_default : SamplingParams)
    `{Eng : Engine SamplingParams} (L : Ledger)
    prompts sampling_params prompt_token_ids use_tqdm (self : LLM) :
  honours L →
  ¬ invalid_args prompts prompt_token_ids →
  sound L (aphrodite self) →
  ∃ fuel0, ∀ fuel, (fuel0 ≤ fuel)%nat →
    let r := generate SamplingParams_default fuel prompts sampling_params
               prompt_token_ids use_tqdm self in
    ∃ outs,
      result r = Returned outs ∧
      request_id <$> outs ≡ₚ
        (str <$> (Counter_take (batch_size prompts prompt_token_ids)
                    (request_counter self)).1) ++
        unfinished L (aphrodite self) ∧
      length outs =
        (batch_size prompts prompt_token_ids +
         length (unfinished L (aphrodite self)))%nat ∧
      unfinished L (aphrodite (final r)) = [].
Proof.
  intros HL Hok Hsound.
  destruct (contract_generate_busy SamplingParams_default L HL prompts sampling_params
              prompt_token_ids use_tqdm self Hok Hsound) as [fuel0 Hrun].
  exists fuel0. intros fuel Hfuel. cbv zeta.
  destruct (Hrun fuel Hfuel) as (outs & Hres & Hids & Hdry).
  exists outs. split; [done|]. split; [done|]. split; [|done].
  apply Permutation_length in Hids.
  rewrite length_app, !length_fmap, Counter_take_spec in Hids. cbn [fst] in Hids.
  by rewrite length_fmap, length_seq in Hids.
Qed.

(** One new prompt on an engine that still holds request "0". *)
Lemma generate_returns_leftovers_too_witness :
  let e := {| Fake.pending := [ {| Fake.rid := "0"; Fake.rprompt := Some "old" |} ];
              Fake.plan := []; Fake.capacity := None |} in
  let self := Fake.driver e 1 in
  let prompts := Some (PromptStr "new") in
  (honours Fake.ledger ∧ ¬ invalid_args prompts None ∧
   sound Fake.ledger (aphrodite self)) ∧
  ∃ fuel0, ∀ fuel, (fuel0 ≤ fuel)%nat →
    ∃ outs,
      result (Fake.run fuel prompts None None true self) = Returned outs ∧
      request_id <$> outs ≡ₚ ["1"; "0"] ∧
      length outs = 2%nat ∧
      Fake.unfinished
        (aphrodite (final (Fake.run fuel prompts None None true self))) = [].
Proof.
  intros e self prompts.
  assert (¬ invalid_args prompts None) as Hok.
  { by intros [[? _]|(? & ? & _ & ? & _)]. }
  assert (sound Fake.ledger (aphrodite self)) as Hsound.
  { split; [done|]. constructor. }
  split; [split; [exact FakeContract.fake_honours|by split]|].
  exact (generate_returns_leftovers_too Fake.SamplingParams_default Fake.ledger
           prompts None None true self FakeContract.fake_honours Hok Hsound).
Defined.

(** X8: what the constructor hands to [EngineArgs].  Statistics logging
    is switched off unless the caller says otherwise: the keyword
    [disable_log_stats] is always passed, with the caller's value if
    there is one and [True] if not.  The four named arguments are passed
    under their names, with 1, ["auto"] and 0 standing in for an omitted
    [tensor_parallel_size], [dtype] and [seed]; every other keyword of
    the caller is passed unchanged and nothing else is added.  The
    object is built from the engine these keywords give, with a new
    counter, and a failure to build the engine is the constructor's. *)
Theorem init_engine_arguments
    {SamplingParams : Type} `{Eng : Engine SamplingParams}
    {value : Type} (of_bool : bool → value) (of_int : Z → value)
    (of_str : string → value) {build_error : Type}
    (from_engine_args : gmap string value → build_error + engine)
    (Counter_new : Counter)
    (model : string) (tensor_parallel_size : option Z) (dtype : option string)
    (seed : option Z) (kwargs : gmap string value) :
  Forall (λ k, kwargs !! k = None) init_parameters →
  ∃ kw,
    engine_args_keywords (build_error := build_error) of_bool of_int of_str model
      (default 1 tensor_parallel_size) (default "auto" dtype) (default 0 seed)
      kwargs = inr kw ∧
    kw !! "disable_log_stats" =
      Some (default (of_bool true) (kwargs !! "disable_log_stats")) ∧
    kw !! "model" = Some (of_str model) ∧
    kw !! "tensor_parallel_size" = Some (of_int (default 1 tensor_parallel_size)) ∧
    kw !! "dtype" = Some (of_str (default "auto" dtype)) ∧
    kw !! "seed" = Some (of_int (default 0 seed)) ∧
    (∀ k, k ∉ init_parameters → k ≠ "disable_log_stats" → kw !! k = kwargs !! k) ∧
    __init__ of_bool of_int of_str from_engine_args Counter_new
      model tensor_parallel_size dtype seed kwargs =
      match from_engine_args kw with
      | inl e => inl (BuildError e)
      | inr e => inr {| aphrodite := e; request_counter := Counter_new |}
      end.
Proof.
  intros Hfree.
  assert (Forall (λ k, with_log_stats_default of_bool kwargs !! k = None)
            init_parameters) as Hfree'.
  { unfold init_parameters in *. rewrite !Forall_cons in Hfree |- *.
    destruct Hfree as (? & ? & ? & ? & _).
    rewrite !with_log_stats_default_lookup. by repeat split. }
  destruct (call_keywords_disjoint (build_error := build_error) of_int of_str model
              (default "auto" dtype) (default 1 tensor_parallel_size)
              (default 0 seed) _ Hfree')
    as (kw & Hkw & Hm & Ht & Hd & Hs & Hrest).
  exists kw. unfold __init__, engine_args_keywords. rewrite Hkw.
  split; [done|]. split.
  { rewrite Hrest, with_log_stats_default_lookup; [by rewrite decide_True|].
    unfold init_parameters.
    repeat (apply not_elem_of_cons; split; [done|]). apply not_elem_of_nil. }
  do 4 (split; [done|]). split; [|done].
  intros k Hk Hne. rewrite Hrest, with_log_stats_default_lookup by done.
  by rewrite decide_False.
Qed.

(** The caller asks for statistics and for room for eight requests. *)
Lemma init_engine_arguments_witness :
  let kwargs : gmap string FakeInit.value :=
    <["disable_log_stats" := FakeInit.PyBool false]>
      (<["max_num_seqs" := FakeInit.PyInt 8]> ∅) in
  Forall (λ k, kwargs !! k = None) init_parameters ∧
  ∃ kw,
    kw !! "disable_log_stats" = Some (FakeInit.PyBool false) ∧
    kw !! "tensor_parallel_size" = Some (FakeInit.PyInt 1) ∧
    kw !! "max_num_seqs" = Some (FakeInit.PyInt 8) ∧
    FakeInit.init "some/model" None None None kwargs =
      match FakeInit.from_engine_args kw with
      | inl e => inl (BuildError e)
      | inr e => inr (Fake.driver e 0)
      end.
Proof.
  intros kwargs.
  assert (Forall (λ k, kwargs !! k = None) init_parameters) as Hfree.
  { repeat constructor. }
  split; [exact Hfree|].
  destruct (init_engine_arguments (Eng := Fake.fake_engine)
              FakeInit.PyBool FakeInit.PyInt FakeInit.PyStr
              FakeInit.from_engine_args 0 "some/model" None None None kwargs Hfree)
    as (kw & _ & Hl & _ & Ht & _ & _ & Hrest & Hinit).
  exists kw. split; [exact Hl|]. split; [exact Ht|]. split; [|exact Hinit].
  rewrite Hrest; [done| |done].
  unfold init_parameters.
  repeat (apply not_elem_of_cons; split; [done|]). apply not_elem_of_nil.
Defined.

Example init_respects_log_stats_choice :
  FakeInit.init "some/model" None None None
    (<["disable_log_stats" := FakeInit.PyBool false]>
       (<["max_num_seqs" := FakeInit.PyInt 8]> ∅)) =
  inr (Fake.driver {| Fake.pending := []; Fake.plan := [];
                      Fake.capacity := Some 8%nat |} 0).
Proof. vm_compute. reflexivity. Qed.
